(** * pyexchange: the SOAP core ([pyexchange/base/soap.py])

    A shallow embedding of [ExchangeServiceSOAP] and of
    [user_availability_header], with the properties of envelope
    construction, response parsing, fault detection and xpath-driven
    field extraction.

    - [Py], [Builtins], [Datetime]: the Python values, exceptions and
      standard-library calls the module uses ([str.lower], [int],
      [datetime.strptime]);
    - [Etree]: lxml's element tree and [ElementMaker];
    - [Lxml]: what the module calls in lxml and in the codec registry,
      as an interface; [Reference] is an executable instance of it;
    - the functions of [soap.py], under their names;
    - the properties, from [Properties] on. *)

From Stdlib Require Import ZArith String Ascii List Bool Lia.
From stdpp Require Import gmap strings list fin_maps.

Set Warnings "-register-all".

Local Open Scope string_scope.

(** ** Python values, exceptions and results *)

Module Py.

(** Byte strings and text are both kept as [string]: one [ascii] is one
    byte of a [bytes] object, or one code point below 256 of a [str]. *)
Definition bytes := string.

(** What a [ValueError] of the standard library reports, by the template
    of its message. *)
Inductive value_error :=
| InvalidLiteralForInt (base : Z) (literal : string)
| TimeDataDoesNotMatch (data format : string)
| UnconvertedDataRemains (rest : string)
| BadDirective (directive : string)
| OutOfRange (what : string).

Inductive exn :=
| XMLSyntaxError (msg : string)
| XPathEvalError (msg : string)
| TypeError (msg : string)
| AttributeError (msg : string)
| KeyError (key : string)
| IndexError (msg : string)
| LookupError (msg : string)
| UnicodeEncodeError (codec : string) (position : nat)
| ValueError (why : value_error)
| FailedExchangeException (args : list (option string)).

(** A call either returns or raises. *)
Inductive result (A : Type) :=
| Return (a : A)
| Raise (e : exn).
Arguments Return {A} a.
Arguments Raise {A} e.

Definition bind {A B} (f : A -> result B) (m : result A) : result B :=
  match m with
  | Return a => f a
  | Raise e => Raise e
  end.

Definition returns {A} (m : result A) : Prop := exists a, m = Return a.

(** [str(err)] for the two exceptions [_parse] formats into its message. *)
Definition str_of_exn (e : exn) : string :=
  match e with
  | XMLSyntaxError msg | XPathEvalError msg | TypeError msg
  | AttributeError msg | IndexError msg | LookupError msg => msg
  | _ => EmptyString
  end.

End Py.

Import Py.

Global Instance result_ret : MRet result := fun A a => Return a.
Global Instance result_bind : MBind result := fun A B f m => Py.bind f m.
Global Instance result_fmap : FMap result :=
  fun A B f m => Py.bind (fun a => Return (f a)) m.

(** ** The lxml element tree *)

Module Etree.

(** A tag in Clark notation, [{namespace}local]. *)
Record QName := { ns : option string; local : string }.

Global Instance QName_eq_dec : EqDecision QName.
Proof. solve_decision. Defined.

(** An element as lxml exposes it: [tag], [attrib], [text], the children
    and [tail].  [text] and [tail] are [None] when the element has no
    character data there.  The prefix table ([nsmap]) only chooses the
    prefixes written on serialisation and is not kept. *)
Inductive element := Element {
  tag : QName;
  attrib : list (string * string);
  text : option string;
  children : list element;
  tail : option string
}.

(** [element.iter()]: the element and its descendants in document order. *)
Fixpoint iter (e : element) : list element :=
  e :: flat_map iter (children e).

(** [parent] has [e] below it, at any depth. *)
Inductive descendant (e : element) : element -> Prop :=
| descendant_child parent : In e (children parent) -> descendant e parent
| descendant_deeper mid parent :
    descendant e mid -> In mid (children parent) -> descendant e parent.

Definition set_attrib (k v : string) (attrs : list (string * string))
  : list (string * string) :=
  if existsb (fun kv => String.eqb (fst kv) k) attrs
  then map (fun kv => if String.eqb (fst kv) k then (k, v) else kv) attrs
  else attrs ++ [(k, v)].

Definition add_tail (s : string) (e : element) : element :=
  Element (tag e) (attrib e) (text e) (children e)
          (Some (default EmptyString (tail e) ++ s)).

(** ** [lxml.builder.ElementMaker] *)

Inductive maker_arg :=
| Attrs (d : list (string * string))
| Text (s : string)
| Child (e : element).

(** One positional argument of [ElementMaker.__call__]: a dict updates the
    attributes, a string is appended to the text of the element or, once
    it has children, to the tail of the last child, and an element is
    appended as the last child. *)
Definition add_arg (elem : element) (item : maker_arg) : element :=
  match item with
  | Attrs d =>
      Element (tag elem)
              (fold_left (fun acc kv => set_attrib (fst kv) (snd kv) acc) d
                         (attrib elem))
              (text elem) (children elem) (tail elem)
  | Text s =>
      match List.rev (children elem) with
      | [] => Element (tag elem) (attrib elem)
                      (Some (default EmptyString (text elem) ++ s)) [] (tail elem)
      | last :: before =>
          Element (tag elem) (attrib elem) (text elem)
                  (List.rev (add_tail s last :: before)) (tail elem)
      end
  | Child c =>
      Element (tag elem) (attrib elem) (text elem) (children elem ++ [c])
              (tail elem)
  end.

Definition ElementMaker (namespace : string) (name : string)
           (args : list maker_arg) : element :=
  fold_left add_arg args
            (Element {| ns := Some namespace; local := name |} [] None [] None).

End Etree.

Import Etree.

(** ** Module constants *)

Definition SOAP_NS : string := "http://schemas.xmlsoap.org/soap/envelope/".
Definition TYPE_NS : string :=
  "http://schemas.microsoft.com/exchange/services/2006/types".

(** A prefix table, as passed for [namespaces=]. *)
Definition nsmap := list (string * string).

Definition SOAP_NAMESPACES : nsmap := [("t", TYPE_NS); ("s", SOAP_NS)].

Definition S := ElementMaker SOAP_NS.
Definition T := ElementMaker TYPE_NS.

Definition EXCHANGE_DATE_FORMAT : string := "%Y-%m-%dT%H:%M:%SZ".

(** ** Built-ins of the Python runtime *)

Module Builtins.

Definition code (c : ascii) : N := N_of_ascii c.

Definition in_range (lo hi : N) (c : ascii) : bool :=
  (lo <=? code c)%N && (code c <=? hi)%N.

Definition is_digit (c : ascii) : bool := in_range 48 57 c.

Definition digit_value (c : ascii) : Z := Z.of_N (code c) - 48.

(** [str.isspace] on one code point below 256. *)
Definition is_space (c : ascii) : bool :=
  in_range 9 13 c || in_range 28 32 c
  || (code c =? 133)%N || (code c =? 160)%N.

(** [str.lower] on one code point below 256. *)
Definition lower_char (c : ascii) : ascii :=
  if in_range 65 90 c || in_range 192 214 c || in_range 216 222 c
  then ascii_of_N (code c + 32)
  else c.

Fixpoint str_lower (s : string) : string :=
  match s with
  | EmptyString => EmptyString
  | String c rest => String (lower_char c) (str_lower rest)
  end.

(** [x.lower()] where [x] is a string or [None]. *)
Definition lower (x : option string) : result string :=
  match x with
  | Some s => Return (str_lower s)
  | None => Raise (AttributeError "'NoneType' object has no attribute 'lower'")
  end.

(** The white space [int] skips around a literal. *)
Definition int_space (c : ascii) : bool :=
  in_range 9 13 c || (code c =? 32)%N || (code c =? 133)%N
  || (code c =? 160)%N.

Fixpoint lstrip (l : list ascii) : list ascii :=
  match l with
  | c :: rest => if int_space c then lstrip rest else l
  | [] => []
  end.

Definition strip (l : list ascii) : list ascii :=
  List.rev (lstrip (List.rev (lstrip l))).

(** Decimal digits, single underscores allowed between two digits. *)
Fixpoint digits (acc : Z) (after_digit : bool) (l : list ascii) : option Z :=
  match l with
  | [] => if after_digit then Some acc else None
  | c :: rest =>
      if is_digit c then digits (10 * acc + digit_value c) true rest
      else if Ascii.eqb c "_" && after_digit then digits acc false rest
      else None
  end.

Definition int_literal (l : list ascii) : option Z :=
  match strip l with
  | "+"%char :: ds => digits 0 false ds
  | "-"%char :: ds => Z.opp <$> digits 0 false ds
  | ds => digits 0 false ds
  end.

(** [int(x)] where [x] is a string or [None]. *)
Definition int (x : option string) : result Z :=
  match x with
  | None =>
      Raise (TypeError
        "int() argument must be a string, a bytes-like object or a real number, not 'NoneType'")
  | Some s =>
      match int_literal (list_ascii_of_string s) with
      | Some n => Return n
      | None => Raise (ValueError (InvalidLiteralForInt 10 s))
      end
  end.

(** [x[0:n]] where [x] is a string or [None]. *)
Definition slice_to (n : nat) (x : option string) : result string :=
  match x with
  | Some s => Return (substring 0 n s)
  | None => Raise (TypeError "'NoneType' object is not subscriptable")
  end.

End Builtins.

(** ** [datetime] and [datetime.strptime] *)

Module Datetime.

Import Builtins.

(** [from pytz import utc, timezone]. *)
Inductive tzinfo :=
| utc
| timezone (zone : string).

Record datetime := {
  year : Z; month : Z; day : Z;
  hour : Z; minute : Z; second : Z; microsecond : Z;
  tz : option tzinfo
}.

Record date := { date_year : Z; date_month : Z; date_day : Z }.

(** [d.replace(tzinfo=z)]. *)
Definition replace_tzinfo (d : datetime) (z : tzinfo) : datetime :=
  {| year := year d; month := month d; day := day d;
     hour := hour d; minute := minute d; second := second d;
     microsecond := microsecond d; tz := Some z |}.

(** [d.date()]. *)
Definition date_of (d : datetime) : date :=
  {| date_year := year d; date_month := month d; date_day := day d |}.

Definition is_leap (y : Z) : bool :=
  ((y mod 4 =? 0) && negb (y mod 100 =? 0) || (y mod 400 =? 0))%Z.

Definition days_in_month (y m : Z) : Z :=
  if (m =? 2)%Z then (if is_leap y then 29 else 28)
  else if ((m =? 4) || (m =? 6) || (m =? 9) || (m =? 11))%Z then 30
  else 31.

(** What a format string is made of: the directives the formats of this
    module use, a run of white space, or a literal character. *)
Inductive directive :=
| dY | dm | dd | dH | dM | dS
| white
| lit (c : ascii).

Definition directive_of (c : ascii) : option directive :=
  if Ascii.eqb c "Y" then Some dY
  else if Ascii.eqb c "m" then Some dm
  else if Ascii.eqb c "d" then Some dd
  else if Ascii.eqb c "H" then Some dH
  else if Ascii.eqb c "M" then Some dM
  else if Ascii.eqb c "S" then Some dS
  else if Ascii.eqb c "%" then Some (lit "%")
  else None.

(** The format, read left to right; [None] on a directive not listed
    above or on a stray [%]. *)
Fixpoint parse_format (after_white : bool) (fmt : string)
  : option (list directive) :=
  match fmt with
  | EmptyString => Some []
  | String c rest =>
      if Ascii.eqb c "%" then
        match rest with
        | EmptyString => None
        | String d rest' =>
            match directive_of d with
            | Some x => cons x <$> parse_format false rest'
            | None => None
            end
        end
      else if is_space c then
        if after_white then parse_format true rest
        else cons white <$> parse_format true rest
      else cons (lit c) <$> parse_format false rest
  end.

(** The alternatives of one directive's pattern, each with the value read
    and the text left, in the order the regular expression tries them. *)
Definition two (p q : ascii -> bool) (s : string) : list (Z * string) :=
  match s with
  | String a (String b rest) =>
      if p a && q b then [(10 * digit_value a + digit_value b, rest)%Z] else []
  | _ => []
  end.

Definition one (p : ascii -> bool) (s : string) : list (Z * string) :=
  match s with
  | String a rest => if p a then [(digit_value a, rest)] else []
  | _ => []
  end.

Definition four (s : string) : list (Z * string) :=
  match s with
  | String a (String b (String c (String d rest))) =>
      if is_digit a && is_digit b && is_digit c && is_digit d
      then [(1000 * digit_value a + 100 * digit_value b
             + 10 * digit_value c + digit_value d, rest)%Z]
      else []
  | _ => []
  end.

Definition skip (p : ascii -> bool) (s : string) : list (Z * string) :=
  match s with
  | String a rest => if p a then [(0%Z, rest)] else []
  | _ => []
  end.

(** One or more white space characters, the longest run first. *)
Fixpoint spaces (s : string) : list (Z * string) :=
  match s with
  | String a rest => if is_space a then spaces rest ++ [(0%Z, rest)] else []
  | _ => []
  end.

Definition is_char (c : ascii) (a : ascii) : bool := Ascii.eqb a c.

Definition alternatives (d : directive) (s : string) : list (Z * string) :=
  match d with
  | dY => four s
  | dm => two (is_char "1") (in_range 48 50) s
          ++ two (is_char "0") (in_range 49 57) s
          ++ one (in_range 49 57) s
  | dd => two (is_char "3") (in_range 48 49) s
          ++ two (in_range 49 50) is_digit s
          ++ two (is_char "0") (in_range 49 57) s
          ++ one (in_range 49 57) s
          ++ flat_map (fun r => one (in_range 49 57) (snd r))
                      (skip (is_char " ") s)
  | dH => two (is_char "2") (in_range 48 51) s
          ++ two (in_range 48 49) is_digit s
          ++ one is_digit s
  | dM => two (in_range 48 53) is_digit s ++ one is_digit s
  | dS => two (is_char "6") (in_range 48 49) s
          ++ two (in_range 48 53) is_digit s
          ++ one is_digit s
  | white => spaces s
  | lit c => skip (fun a => Ascii.eqb (lower_char a) (lower_char c)) s
  end.

(** The fields [strptime] collects, with their defaults. *)
Definition initial : datetime :=
  {| year := 1900; month := 1; day := 1; hour := 0; minute := 0;
     second := 0; microsecond := 0; tz := None |}.

Definition set_field (d : directive) (v : Z) (f : datetime) : datetime :=
  match d with
  | dY => {| year := v; month := month f; day := day f; hour := hour f;
             minute := minute f; second := second f;
             microsecond := microsecond f; tz := tz f |}
  | dm => {| year := year f; month := v; day := day f; hour := hour f;
             minute := minute f; second := second f;
             microsecond := microsecond f; tz := tz f |}
  | dd => {| year := year f; month := month f; day := v; hour := hour f;
             minute := minute f; second := second f;
             microsecond := microsecond f; tz := tz f |}
  | dH => {| year := year f; month := month f; day := day f; hour := v;
             minute := minute f; second := second f;
             microsecond := microsecond f; tz := tz f |}
  | dM => {| year := year f; month := month f; day := day f; hour := hour f;
             minute := v; second := second f;
             microsecond := microsecond f; tz := tz f |}
  | dS => {| year := year f; month := month f; day := day f; hour := hour f;
             minute := minute f; second := v;
             microsecond := microsecond f; tz := tz f |}
  | white | lit _ => f
  end.

(** Every way the directives match a prefix of [s], first match first. *)
Fixpoint matches (ds : list directive) (s : string) (f : datetime)
  : list (datetime * string) :=
  match ds with
  | [] => [(f, s)]
  | d :: ds' =>
      flat_map (fun vr => matches ds' (snd vr) (set_field d (fst vr) f))
               (alternatives d s)
  end.

(** The range checks of the [date] and [datetime] constructors. *)
Definition construct (f : datetime) : result datetime :=
  if (year f <? 1)%Z then Raise (ValueError (OutOfRange "year"))
  else if (days_in_month (year f) (month f) <? day f)%Z
  then Raise (ValueError (OutOfRange "day"))
  else if (59 <? second f)%Z then Raise (ValueError (OutOfRange "second"))
  else Return f.

(** [datetime.strptime(data, format)] where [data] is a string or [None]. *)
Definition strptime (data : option string) (format : string)
  : result datetime :=
  match data with
  | None => Raise (TypeError "strptime() argument 1 must be str, not None")
  | Some s =>
      match parse_format false format with
      | None => Raise (ValueError (BadDirective format))
      | Some ds =>
          match matches ds s initial with
          | [] => Raise (ValueError (TimeDataDoesNotMatch s format))
          | (f, EmptyString) :: _ => construct f
          | (_, rest) :: _ => Raise (ValueError (UnconvertedDataRemains rest))
          end
      end
  end.

End Datetime.

Import Datetime.

(** ** [user_availability_header] *)

Definition user_availability_header : element :=
  S "Header" [
    Child (T "RequestServerVersion" [Attrs [("Version", "Exchange2010")]]);
    Child (T "TimeZoneContext" [
      Child (T "TimeZoneDefinition" [
        Attrs [("Name", "(UTC-08:00) Pacific Time (US &amp; Canada)");
               ("Id", "Pacific Standard Time")];
        Child (T "Periods" [
          Child (T "Period" [Attrs [("Bias", "P0DT8H0M0.0S");
                                    ("Name", "Standard");
                                    ("Id", "Std")]]);
          Child (T "Period" [Attrs [("Bias", "P0DT7H0M0.0S");
                                    ("Name", "Daylight");
                                    ("Id", "Dlt/1")]])
        ]);
        Child (T "TransitionsGroups" [
          Child (T "TransitionsGroup" [
            Attrs [("Id", "0")];
            Child (T "RecurringDayTransition" [
              Child (T "To" [Attrs [("Kind", "Period")]; Text "Dlt/1"]);
              Child (T "TimeOffset" [Text "P0DT2H0M0.0S"]);
              Child (T "Month" [Text "3"]);
              Child (T "DayOfWeek" [Text "Sunday"]);
              Child (T "Occurrence" [Text "1"])
            ]);
            Child (T "RecurringDayTransition" [
              Child (T "To" [Attrs [("Kind", "Period")]; Text "Std"]);
              Child (T "TimeOffset" [Text "P0DT2H0M0.0S"]);
              Child (T "Month" [Text "11"]);
              Child (T "DayOfWeek" [Text "Sunday"]);
              Child (T "Occurrence" [Text "1"])
            ])
          ])
        ]);
        Child (T "Transitions" [
          Child (T "Transition" [
            Child (T "To" [Attrs [("Kind", "Group")]; Text "0"])
          ]);
          Child (T "AbsoluteDateTransition" [
            Child (T "To" [Attrs [("Kind", "Group")]; Text "0"]);
            Child (T "DateTime" [Text "2015-03-01T08:00:00.000Z"])
          ])
        ])
      ])
    ])
  ].

(** ** What [element.xpath] returns

    A location path gives a list: of elements, of the smart strings of
    text nodes and attribute values ([text()], [@name]), or of the
    [(prefix, uri)] tuples of namespace nodes.  An expression of another
    type gives a float, a bool or a string.  (Comments and processing
    instructions are not part of [element].) *)

Inductive xpath_item :=
| XElement (e : element)
| XSmartString (s : string)
| XTuple (prefix : option string) (uri : string)
(** the [str] of one character that iterating over a string, or indexing
    it, gives *)
| XChar (c : ascii).

(** Of a float the module only tests whether it is zero. *)
Inductive xpath_result :=
| XList (items : list xpath_item)
| XFloat (zero : bool)
| XBool (b : bool)
| XString (s : string).

Module Protocol.

Definition type_name (x : xpath_item) : string :=
  match x with
  | XElement _ => "lxml.etree._Element"
  | XSmartString _ => "lxml.etree._ElementUnicodeResult"
  | XTuple _ _ => "tuple"
  | XChar _ => "str"
  end.

Definition result_type (r : xpath_result) : string :=
  match r with
  | XList _ => "list"
  | XFloat _ => "float"
  | XBool _ => "bool"
  | XString _ => "lxml.etree._ElementUnicodeResult"
  end.

(** [if r:] *)
Definition truthy (r : xpath_result) : bool :=
  match r with
  | XList [] => false
  | XList (_ :: _) => true
  | XFloat zero => negb zero
  | XBool b => b
  | XString EmptyString => false
  | XString (String _ _) => true
  end.

(** [for node in r]: what the loop goes through. *)
Definition iterate (r : xpath_result) : result (list xpath_item) :=
  match r with
  | XList items => Return items
  | XString s => Return (map XChar (list_ascii_of_string s))
  | XFloat _ | XBool _ =>
      Raise (TypeError ("'" ++ result_type r ++ "' object is not iterable"))
  end.

(** [r[0]] *)
Definition first (r : xpath_result) : result xpath_item :=
  match r with
  | XList (x :: _) => Return x
  | XList [] => Raise (IndexError "list index out of range")
  | XString (String c _) => Return (XChar c)
  | XString EmptyString => Raise (IndexError "string index out of range")
  | XFloat _ | XBool _ =>
      Raise (TypeError ("'" ++ result_type r
                        ++ "' object is not subscriptable"))
  end.

(** [node.text] *)
Definition node_text (node : xpath_item) : result (option string) :=
  match node with
  | XElement e => Return (text e)
  | _ =>
      Raise (AttributeError ("'" ++ type_name node
                             ++ "' object has no attribute 'text'"))
  end.

(** [etree.tostring(node, pretty_print=True)], with no encoding given:
    an element is written in ASCII with character references, which
    cannot fail; anything else is refused. *)
Definition tostring_default (node : xpath_item) : result unit :=
  match node with
  | XElement _ => Return tt
  | _ =>
      Raise (TypeError ("Type '" ++ type_name node
                        ++ "' cannot be serialized."))
  end.

End Protocol.

Import Protocol.

(** ** What the module calls outside itself

    [str.encode] with the codecs registered in the interpreter, and lxml's
    parser, serialiser and XPath evaluator. *)

Class Lxml := {
  (** [text.encode(encoding)] *)
  str_encode : string -> string -> result bytes;
  (** [etree.XML(data)] *)
  XML : bytes -> result element;
  (** [etree.tostring(tree, encoding=encoding, pretty_print=pretty_print)]
      for a tree and the name of an encoding: the bytes, or [None] where
      lxml raises [LookupError] because the serialiser does not have the
      encoding *)
  tostring_bytes : element -> string -> bool -> option bytes;
  (** [element.xpath(path, namespaces=prefixes)] *)
  xpath : element -> string -> nsmap -> result xpath_result
}.

(** [etree.tostring(tree, encoding=encoding, pretty_print=pretty_print)]. *)
Definition tostring {lxml : Lxml} (tree : element) (encoding : string)
    (pretty_print : bool) : result bytes :=
  match tostring_bytes tree encoding pretty_print with
  | Some data => Return data
  | None =>
      Raise (LookupError ("unknown encoding: '" ++ encoding ++ "'"))
  end.

(** ** Values of an extraction result *)

Inductive value :=
| VNone
| VStr (s : string)
| VInt (n : Z)
| VBool (b : bool)
| VDatetime (d : datetime)
| VDate (d : date)
| VList (l : list value).

(** [node.text] as a Python value. *)
Definition of_text (x : option string) : value :=
  match x with
  | Some s => VStr s
  | None => VNone
  end.

(** ** [class ExchangeServiceSOAP] *)

Section ExchangeServiceSOAP.

Context {lxml : Lxml}.

(** [self.connection.send(body, headers, retries, timeout)]. *)
Variable connection_send :
  bytes -> option (list (string * string)) -> Z -> Z -> result string.

(** The [log.debug] of the fault serialises it without naming an
    encoding. *)
Definition _check_for_SOAP_fault (xml_tree : element) : result unit :=
  fault_nodes ← xpath xml_tree "//s:Fault" SOAP_NAMESPACES;
  if truthy fault_nodes then
    fault ← first fault_nodes;
    _ ← tostring_default fault;
    fault_text ← node_text fault;
    Raise (FailedExchangeException
             [Some "SOAP Fault from Exchange server"; fault_text])
  else Return tt.

Definition _check_for_errors (xml_tree : element) : result unit :=
  _check_for_SOAP_fault xml_tree.

Definition unable_to_parse (err : exn) : exn :=
  FailedExchangeException
    [Some ("Unable to parse response from Exchange - check your login information. Error: "
           ++ str_of_exn err)].

(** The argument of [log.info] is evaluated before the tree is
    returned: the tree is serialised under [encoding] once more. *)
Definition _parse (response : string) (encoding : string) : result element :=
  match (data ← str_encode response encoding; XML data) with
  | Raise (XMLSyntaxError msg) => Raise (unable_to_parse (XMLSyntaxError msg))
  | Raise (TypeError msg) => Raise (unable_to_parse (TypeError msg))
  | Raise err => Raise err
  | Return tree =>
      _ ← _check_for_errors tree;
      _ ← tostring tree encoding true;
      Return tree
  end.

Definition _send_soap_request (xml : element)
    (headers : option (list (string * string))) (retries timeout : Z)
    (encoding : string) : result string :=
  body ← tostring xml encoding false;
  connection_send body headers retries timeout.

Definition _exchange_header (user_availability_req : bool) : element :=
  if user_availability_req then user_availability_header
  else S "Header" [Child (T "RequestServerVersion"
                             [Attrs [("Version", "Exchange2010")]])].

Definition _wrap_soap_xml_request (exchange_xml : element)
    (user_availability_req : bool) : element :=
  S "Envelope" [Child (_exchange_header user_availability_req);
                Child (S "Body" [Child exchange_xml])].

(** The request is serialised for [log.info] before it is sent. *)
Definition send (xml : element) (headers : option (list (string * string)))
    (retries timeout : Z) (encoding : string) (user_availability_req : bool)
  : result element :=
  let request_xml := _wrap_soap_xml_request xml user_availability_req in
  _ ← tostring request_xml encoding true;
  response ← _send_soap_request request_xml headers retries timeout encoding;
  _parse response encoding.

Definition _parse_date (date_string : option string) : result datetime :=
  date ← strptime date_string EXCHANGE_DATE_FORMAT;
  Return (replace_tzinfo date utc).

Definition _parse_date_only_naive (date_string : option string)
  : result date :=
  prefix ← Builtins.slice_to 10 date_string;
  date ← strptime (Some prefix) (substring 0 8 EXCHANGE_DATE_FORMAT);
  Return (date_of date).

(** [item[key]] on a dict. *)
Definition getitem (item : gmap string string) (key : string)
  : result string :=
  match item !! key with
  | Some v => Return v
  | None => Raise (KeyError key)
  end.

(** The body of [for node in nodes]: the value appended for one object
    of the result. *)
Definition cast_node (item : gmap string string) (node : xpath_item)
  : result value :=
  let cast_as := item !! "cast" in
  if decide (cast_as = Some "datetime") then
    txt ← node_text node;
    VDatetime <$> _parse_date txt
  else if decide (cast_as = Some "date_only_naive") then
    txt ← node_text node;
    VDate <$> _parse_date_only_naive txt
  else if decide (cast_as = Some "int") then
    txt ← node_text node;
    VInt <$> Builtins.int txt
  else if decide (cast_as = Some "bool") then
    txt ← node_text node;
    lowered ← Builtins.lower txt;
    if decide (lowered = "true") then Return (VBool true)
    else Return (VBool false)
  else of_text <$> node_text node.

(** [for node in nodes], with [result_for_node] as built so far. *)
Fixpoint for_nodes (item : gmap string string) (nodes : list xpath_item)
    (result_for_node : list value) : result (list value) :=
  match nodes with
  | [] => Return result_for_node
  | node :: rest =>
      v ← cast_node item node;
      for_nodes item rest (result_for_node ++ [v])
  end.

(** The three ways [result[key]] is assigned. *)
Inductive branch := store_none | store_scalar | store_list.

Definition branch_of (result_for_node : list value) : branch :=
  match result_for_node with
  | [] => store_none
  | [_] => store_scalar
  | _ => store_list
  end.

Definition store (result : gmap string value) (key : string)
    (result_for_node : list value) : gmap string value :=
  match result_for_node with
  | [] => <[key := VNone]> result
  | [v] => <[key := v]> result
  | _ => <[key := VList result_for_node]> result
  end.

(** The body of [for key in property_map]. *)
Definition for_key (element : element) (namespace_map : nsmap)
    (key : string) (item : gmap string string) (result : gmap string value)
  : Py.result (gmap string value) :=
  path ← getitem item "xpath";
  nodes ← xpath element path namespace_map;
  if truthy nodes then
    sequence ← iterate nodes;
    result_for_node ← for_nodes item sequence [];
    Return (store result key result_for_node)
  else Return result.

Fixpoint for_keys (element : element) (namespace_map : nsmap)
    (property_map : list (string * gmap string string))
    (result : gmap string value) : Py.result (gmap string value) :=
  match property_map with
  | [] => Return result
  | (key, item) :: rest =>
      result' ← for_key element namespace_map key item result;
      for_keys element namespace_map rest result'
  end.

(** [property_map] is the dict in its iteration order: a list of distinct
    keys with their items.  The text of [element] that [log.info] gets
    first is written without naming an encoding. *)
Definition _xpath_to_dict (element : element)
    (property_map : list (string * gmap string string))
    (namespace_map : nsmap) : result (gmap string value) :=
  for_keys element namespace_map property_map ∅.

End ExchangeServiceSOAP.

(** ** A reference implementation of [Lxml]

    An executable instance for running the module on concrete documents:
    three codecs, a parser and a serialiser for a subset of XML 1.0 with
    namespaces (start tags with double-quoted attributes, the five named
    entities and character references, no comments, processing
    instructions, CDATA sections or declarations), and the XPath
    expressions that are a chain of child steps by name, or [//name].
    Where it returns a tree, that is the tree lxml builds. *)

Module Reference.

Import Builtins.

Definition syntax_error {A} (msg : string) : result A :=
  Raise (XMLSyntaxError msg).

(** *** Codecs *)

Definition utf8_char (c : ascii) : string :=
  if (code c <? 128)%N then String c EmptyString
  else String (ascii_of_N (192 + code c / 64))
         (String (ascii_of_N (128 + code c mod 64)) EmptyString).

Fixpoint utf8 (s : string) : string :=
  match s with
  | EmptyString => EmptyString
  | String c rest => utf8_char c ++ utf8 rest
  end.

Fixpoint ascii_codec (position : nat) (s : string) : result string :=
  match s with
  | EmptyString => Return EmptyString
  | String c rest =>
      if (code c <? 128)%N then String c <$> ascii_codec (Datatypes.S position) rest
      else Raise (UnicodeEncodeError "ascii" position)
  end.

Definition hex_digit (n : N) : ascii :=
  if (n <? 10)%N then ascii_of_N (48 + n) else ascii_of_N (87 + n).

(** Python's own [unicode_escape]: printable ASCII as it stands but the
    backslash, which is doubled; tab, newline and carriage return by
    their letter; any other code point below 256 as [\xhh]. *)
Definition unicode_escape_char (c : ascii) : string :=
  if Ascii.eqb c "\" then "\\"
  else if (code c =? 9)%N then "\t"
  else if (code c =? 10)%N then "\n"
  else if (code c =? 13)%N then "\r"
  else if in_range 32 126 c then String c EmptyString
  else String "\" (String "x" (String (hex_digit (code c / 16))
         (String (hex_digit (code c mod 16)) EmptyString))).

Fixpoint unicode_escape (s : string) : string :=
  match s with
  | EmptyString => EmptyString
  | String c rest => unicode_escape_char c ++ unicode_escape rest
  end.

Definition encode (s : string) (encoding : string) : result bytes :=
  let name := str_lower encoding in
  if bool_decide (name ∈ ["utf-8"; "utf8"]) then Return (utf8 s)
  else if bool_decide (name ∈ ["ascii"; "us-ascii"]) then ascii_codec 0 s
  else if bool_decide (name ∈ ["latin-1"; "latin1"; "iso-8859-1"])
  then Return s
  else if bool_decide (name ∈ ["unicode_escape"; "unicode-escape"])
  then Return (unicode_escape s)
  else Raise (LookupError ("unknown encoding: " ++ encoding)).

(** *** Characters *)

Definition quote : ascii := ascii_of_N 34.

Definition name_start (c : ascii) : bool :=
  in_range 65 90 c || in_range 97 122 c || Ascii.eqb c "_".

Definition ncname_char (c : ascii) : bool :=
  name_start c || is_digit c || Ascii.eqb c "-" || Ascii.eqb c ".".

Definition name_char (c : ascii) : bool :=
  ncname_char c || Ascii.eqb c ":".

(** The code points XML 1.0 allows, below 256. *)
Definition xml_char (c : ascii) : bool :=
  (code c =? 9)%N || (code c =? 10)%N || (code c =? 13)%N
  || (32 <=? code c)%N.

(** The characters read as they stand: printable ASCII but [&] and [<],
    and in content also tab and newline, in an attribute value not the
    quote. *)
Definition plain (in_attribute : bool) (c : ascii) : bool :=
  if in_attribute
  then in_range 32 126 c && negb (Ascii.eqb c "&") && negb (Ascii.eqb c "<")
       && negb (Ascii.eqb c quote)
  else (in_range 32 126 c || (code c =? 9)%N || (code c =? 10)%N)
       && negb (Ascii.eqb c "&") && negb (Ascii.eqb c "<").

Fixpoint forallb_string (p : ascii -> bool) (s : string) : bool :=
  match s with
  | EmptyString => true
  | String c rest => p c && forallb_string p rest
  end.

(** The longest prefix of characters satisfying [p], and the rest. *)
Fixpoint span (p : ascii -> bool) (s : string) : string * string :=
  match s with
  | EmptyString => (EmptyString, EmptyString)
  | String c rest =>
      if p c then (String c (fst (span p rest)), snd (span p rest))
      else (EmptyString, s)
  end.

Definition is_ncname (s : string) : bool :=
  match s with
  | EmptyString => false
  | String c rest => name_start c && forallb_string ncname_char rest
  end.

(** *** Character data *)

Fixpoint decimal (acc : N) (s : string) : option N :=
  match s with
  | EmptyString => Some acc
  | String c rest =>
      if is_digit c then decimal (10 * acc + (code c - 48)) rest else None
  end.

(** What stands between [&] and [;]. *)
Definition entity (name : string) : option ascii :=
  if String.eqb name "amp" then Some "&"%char
  else if String.eqb name "lt" then Some "<"%char
  else if String.eqb name "gt" then Some ">"%char
  else if String.eqb name "quot" then Some quote
  else if String.eqb name "apos" then Some "'"%char
  else match name with
       | String "#" (String d ds) =>
           match decimal 0 (String d ds) with
           | Some n =>
               if (n <? 256)%N && xml_char (ascii_of_N n)
               then Some (ascii_of_N n) else None
           | None => None
           end
       | _ => None
       end.

Definition prepend (c : ascii) (r : string * string) : string * string :=
  (String c (fst r), snd r).

(** Character data up to the next [<] (or, in an attribute value, the
    closing quote), references resolved; [pending] holds what was read of
    a reference since its [&], last character first. *)
Fixpoint chardata (in_attribute : bool) (pending : option (list ascii))
    (s : string) : result (string * string) :=
  match s with
  | EmptyString =>
      match pending with
      | None => Return (EmptyString, EmptyString)
      | Some _ => syntax_error "EntityRef: expecting ';'"
      end
  | String c rest =>
      match pending with
      | Some buf =>
          if Ascii.eqb c ";" then
            match entity (string_of_list_ascii (List.rev buf)) with
            | Some ch => prepend ch <$> chardata in_attribute None rest
            | None => syntax_error "Entity not defined"
            end
          else chardata in_attribute (Some (c :: buf)) rest
      | None =>
          if Ascii.eqb c "<" then
            if in_attribute
            then syntax_error "Unescaped '<' not allowed in attributes values"
            else Return (EmptyString, s)
          else if Ascii.eqb c quote && in_attribute
          then Return (EmptyString, s)
          else if Ascii.eqb c "&" then chardata in_attribute (Some []) rest
          else if plain in_attribute c
          then prepend c <$> chardata in_attribute None rest
          else syntax_error "Char out of the subset read as it stands"
      end
  end.

(** *** Tokens *)

Inductive token :=
| Open (name : string) (attrs : list (string * string))
| Close (name : string)
| Chars (s : string).

(** [s] without its first character, which has to be [c]. *)
Definition uncons (c : ascii) (s : string) : option string :=
  match s with
  | String d rest => if Ascii.eqb d c then Some rest else None
  | EmptyString => None
  end.

(** Zero or more [ name="value"], up to the end of the start tag. *)
Fixpoint attributes (fuel : nat) (s : string)
  : result (list (string * string) * string) :=
  match fuel with
  | O => syntax_error "Couldn't find end of Start Tag"
  | Datatypes.S fuel' =>
      match uncons " " s with
      | None => Return ([], s)
      | Some rest =>
          let name := fst (span name_char rest) in
          match uncons "=" (snd (span name_char rest)) ≫= uncons quote with
          | None => syntax_error "Specification mandates value for attribute"
          | Some rest2 =>
              if String.eqb name EmptyString
              then syntax_error "error parsing attribute name"
              else
                vr ← chardata true None rest2;
                match uncons quote (snd vr) with
                | None => syntax_error "AttValue: quote expected"
                | Some rest4 =>
                    more ← attributes fuel' rest4;
                    Return ((name, fst vr) :: fst more, snd more)
                end
          end
      end
  end.

(** The end tag whose [</] was read. *)
Definition end_tag (s : string) : result (string * string) :=
  let name := fst (span name_char s) in
  match uncons ">" (snd (span name_char s)) with
  | None => syntax_error "expected '>'"
  | Some rest =>
      if String.eqb name EmptyString
      then syntax_error "StartTag: invalid element name"
      else Return (name, rest)
  end.

(** The start tag whose [<] was read: its name and attributes, whether it
    ends in [/>], and the rest. *)
Definition start_tag (s : string)
  : result (string * list (string * string) * bool * string) :=
  let name := fst (span name_char s) in
  if String.eqb name EmptyString
  then syntax_error "StartTag: invalid element name"
  else
    ar ← attributes (Datatypes.S (String.length s)) (snd (span name_char s));
    match uncons ">" (snd ar) with
    | Some rest => Return (name, fst ar, false, rest)
    | None =>
        match uncons "/" (snd ar) ≫= uncons ">" with
        | Some rest => Return (name, fst ar, true, rest)
        | None => syntax_error "Couldn't find end of Start Tag"
        end
    end.

Fixpoint tokens (fuel : nat) (s : string) : result (list token) :=
  match fuel with
  | O => syntax_error "Premature end of data"
  | Datatypes.S fuel' =>
      match s with
      | EmptyString => Return []
      | String _ _ =>
          match uncons "<" s with
          | None =>
              tr ← chardata false None s;
              cons (Chars (fst tr)) <$> tokens fuel' (snd tr)
          | Some rest =>
              match uncons "/" rest with
              | Some rest1 =>
                  nr ← end_tag rest1;
                  cons (Close (fst nr)) <$> tokens fuel' (snd nr)
              | None =>
                  tag ← start_tag rest;
                  let '(name, attrs, empty, rest2) := tag in
                  (fun ts => if empty : bool
                             then Open name attrs :: Close name :: ts
                             else Open name attrs :: ts)
                    <$> tokens fuel' rest2
              end
          end
      end
  end.

(** *** Trees from tokens *)

Fixpoint assoc (k : string) (l : list (string * string)) : option string :=
  match l with
  | [] => None
  | (k', v) :: rest => if String.eqb k' k then Some v else assoc k rest
  end.

(** A name as [prefix:local] or [local]; [None] when it is neither. *)
Definition split_prefix (name : string) : option (option string * string) :=
  let before := fst (span (fun c => negb (Ascii.eqb c ":")) name) in
  match snd (span (fun c => negb (Ascii.eqb c ":")) name) with
  | EmptyString => if is_ncname before then Some (None, before) else None
  | String _ after =>
      if is_ncname before && is_ncname after then Some (Some before, after)
      else None
  end.

(** The binding an attribute declares, if it is [xmlns] or [xmlns:p]. *)
Definition declaration (kv : string * string) : option (string * string) :=
  if String.eqb (fst kv) "xmlns" then Some (EmptyString, snd kv)
  else match split_prefix (fst kv) with
       | Some (Some p, bound) =>
           if String.eqb p "xmlns" then Some (bound, snd kv) else None
       | _ => None
       end.

Definition resolve_tag (scope : list (string * string)) (name : string)
  : result QName :=
  match split_prefix name with
  | None => syntax_error "StartTag: invalid element name"
  | Some (None, l) =>
      Return {| ns := match assoc EmptyString scope with
                      | Some EmptyString | None => None
                      | Some uri => Some uri
                      end;
                local := l |}
  | Some (Some p, l) =>
      match assoc p scope with
      | Some uri => Return {| ns := Some uri; local := l |}
      | None => syntax_error "Namespace prefix on element is not defined"
      end
  end.

Fixpoint resolve_attrs (scope : list (string * string))
    (attrs : list (string * string)) : result (list (string * string)) :=
  match attrs with
  | [] => Return []
  | kv :: rest =>
      match declaration kv with
      | Some _ => resolve_attrs scope rest
      | None =>
          match split_prefix (fst kv) with
          | None => syntax_error "error parsing attribute name"
          | Some (None, l) => cons (l, snd kv) <$> resolve_attrs scope rest
          | Some (Some p, l) =>
              match assoc p scope with
              | Some uri =>
                  cons ("{" ++ uri ++ "}" ++ l, snd kv)
                    <$> resolve_attrs scope rest
              | None =>
                  syntax_error "Namespace prefix for attribute is not defined"
              end
          end
      end
  end.

(** An element whose end tag has not been read yet: the name as written,
    what is known of the element, its children last first, and the prefix
    bindings in scope (the default namespace under the empty prefix). *)
Record frame := Frame {
  raw_name : string;
  frame_tag : QName;
  frame_attrib : list (string * string);
  frame_text : option string;
  frame_children : list element;
  scope : list (string * string)
}.

Definition open_frame (outer : list (string * string)) (name : string)
    (attrs : list (string * string)) : result frame :=
  if negb (bool_decide (NoDup (map fst attrs)))
  then syntax_error "Attribute redefined"
  else
    let inner := (omap declaration attrs ++ outer)%list in
    q ← resolve_tag inner name;
    resolved ← resolve_attrs inner attrs;
    Return (Frame name q resolved None [] inner).

Definition add_chars (s : string) (fr : frame) : frame :=
  match frame_children fr with
  | [] =>
      Frame (raw_name fr) (frame_tag fr) (frame_attrib fr)
            (Some (default EmptyString (frame_text fr) ++ s)) [] (scope fr)
  | last :: before =>
      Frame (raw_name fr) (frame_tag fr) (frame_attrib fr) (frame_text fr)
            (add_tail s last :: before) (scope fr)
  end.

Definition add_child (e : element) (fr : frame) : frame :=
  Frame (raw_name fr) (frame_tag fr) (frame_attrib fr) (frame_text fr)
        (e :: frame_children fr) (scope fr).

Definition close (fr : frame) : element :=
  Element (frame_tag fr) (frame_attrib fr) (frame_text fr)
          (List.rev (frame_children fr)) None.

Definition scope_of (stack : list frame) : list (string * string) :=
  match stack with
  | fr :: _ => scope fr
  | [] => []
  end.

(** [stack] holds the open elements, innermost first; [root] is the
    document element once its end tag was read. *)
Fixpoint build (stack : list frame) (root : option element)
    (ts : list token) : result element :=
  match ts with
  | [] =>
      match stack, root with
      | [], Some e => Return e
      | [], None => syntax_error "Document is empty"
      | _ :: _, _ => syntax_error "Premature end of data in tag"
      end
  | Open name attrs :: rest =>
      match root with
      | Some _ => syntax_error "Extra content at the end of the document"
      | None =>
          fr ← open_frame (scope_of stack) name attrs;
          build (fr :: stack) None rest
      end
  | Chars s :: rest =>
      match stack with
      | [] =>
          if forallb_string is_space s then build [] root rest
          else syntax_error "Start tag expected, not found"
      | fr :: outer => build (add_chars s fr :: outer) root rest
      end
  | Close name :: rest =>
      match stack with
      | [] => syntax_error "Extra content at the end of the document"
      | fr :: outer =>
          if negb (String.eqb name (raw_name fr))
          then syntax_error "Opening and ending tag mismatch"
          else
            match outer with
            | [] => build [] (Some (close fr)) rest
            | parent :: outer' =>
                build (add_child (close fr) parent :: outer') None rest
            end
      end
  end.

(** [etree.XML]. *)
Definition parse (data : bytes) : result element :=
  ts ← tokens (Datatypes.S (String.length data)) data;
  build [] None ts.

(** *** Serialisation *)

Definition digit (n : N) : string := String (ascii_of_N (48 + n)) EmptyString.

Definition show (n : N) : string :=
  if (n <? 10)%N then digit n
  else if (n <? 100)%N then digit (n / 10) ++ digit (n mod 10)
  else digit (n / 100) ++ digit (n / 10 mod 10) ++ digit (n mod 10).

Definition esc_char (c : ascii) : string :=
  if Ascii.eqb c "&" then "&amp;"
  else if Ascii.eqb c "<" then "&lt;"
  else if Ascii.eqb c ">" then "&gt;"
  else if Ascii.eqb c quote then "&quot;"
  else if in_range 32 126 c then String c EmptyString
  else "&#" ++ show (code c) ++ ";".

Fixpoint esc (s : string) : string :=
  match s with
  | EmptyString => EmptyString
  | String c rest => esc_char c ++ esc rest
  end.

Definition write_attr (kv : string * string) : string :=
  " " ++ fst kv ++ "="
  ++ String quote (esc (snd kv) ++ String quote EmptyString).

Fixpoint write_attrs (attrs : list (string * string)) : string :=
  match attrs with
  | [] => EmptyString
  | kv :: rest => write_attr kv ++ write_attrs rest
  end.

(** Every element declares its namespace as the default one. *)
Definition xmlns (q : QName) : string * string :=
  ("xmlns", default EmptyString (ns q)).

(** *** The tokens of a tree, and their text *)

Definition chars (x : option string) : list token :=
  match x with
  | Some (String c s) => [Chars (String c s)]
  | _ => []
  end.

Fixpoint events (e : element) : list token :=
  (Open (local (tag e)) (xmlns (tag e) :: attrib e)
   :: chars (text e) ++ flat_map events (children e)
   ++ Close (local (tag e)) :: chars (tail e))%list.

Definition write (t : token) : string :=
  match t with
  | Open name attrs => "<" ++ name ++ write_attrs attrs ++ ">"
  | Close name => "</" ++ name ++ ">"
  | Chars s => esc s
  end.

Fixpoint write_all (ts : list token) : string :=
  match ts with
  | [] => EmptyString
  | t :: rest => write t ++ write_all rest
  end.

(** The text of the tokens of the element, of what is below it and of
    its tail.  Characters outside printable ASCII are written as
    character references, so the bytes are the same under every encoding
    that extends ASCII. *)
Definition serialize (e : element) : string := write_all (events e).

(** The encodings the serialiser has: the ones under which lxml writes
    no XML declaration.  The codecs of the interpreter that libxml2 does
    not have, [unicode_escape] among them, are not there. *)
Definition serialises (encoding : string) : bool :=
  bool_decide (str_lower encoding ∈ ["utf-8"; "utf8"; "ascii"; "us-ascii"]).

(** [etree.tostring]; [pretty_print] asks for indentation between tags,
    which this serialiser does not add. *)
Definition write_tree (e : element) (encoding : string) (pretty_print : bool)
  : option bytes :=
  if serialises encoding then Some (serialize e) else None.

(** A text that is empty or starts a tag. *)
Definition starts_tag (s : string) : Prop :=
  s = EmptyString \/ exists rest, s = String "<" rest.

Definition is_name (s : string) : bool :=
  negb (String.eqb s EmptyString) && forallb_string ncname_char s.

(** Tokens whose text is read back as the same tokens: names that are
    names, character data that is not empty and has only code points XML
    allows, and no character data next to character data. *)
Definition attrs_ok (attrs : list (string * string)) : bool :=
  forallb (fun kv => is_name (fst kv) && forallb_string xml_char (snd kv))
          attrs.

Definition token_ok (t : token) : bool :=
  match t with
  | Open name attrs => is_name name && attrs_ok attrs
  | Close name => is_name name
  | Chars s => negb (String.eqb s EmptyString) && forallb_string xml_char s
  end.

Definition is_chars (t : token) : bool :=
  match t with
  | Chars _ => true
  | _ => false
  end.

(** The tokens do not start with character data. *)
Definition opens (ts : list token) : Prop :=
  match ts with
  | t :: _ => is_chars t = false
  | [] => True
  end.

Fixpoint tokens_ok (ts : list token) : bool :=
  match ts with
  | [] => true
  | t :: rest =>
      token_ok t
      && negb (is_chars t && match rest with
                             | t' :: _ => is_chars t'
                             | [] => false
                             end)
      && tokens_ok rest
  end.

(** What lxml accepts in a tree and this serialiser can write: local
    names and attribute names without prefix, distinct attribute names,
    a namespace that is not the empty string, and only code points XML
    allows. *)
Definition text_ok (x : option string) : bool :=
  forallb_string xml_char (default EmptyString x).

Definition attr_ok (kv : string * string) : bool :=
  is_ncname (fst kv) && negb (String.eqb (fst kv) "xmlns")
  && forallb_string xml_char (snd kv).

Fixpoint serialisable (e : element) : bool :=
  is_ncname (local (tag e))
  && negb (bool_decide (ns (tag e) = Some EmptyString))
  && text_ok (ns (tag e))
  && forallb attr_ok (attrib e)
  && bool_decide (NoDup (map fst (attrib e)))
  && text_ok (text e) && text_ok (tail e)
  && forallb serialisable (children e).

(** *** XPath *)

(** [path] cut at every [/]. *)
Fixpoint segments (path : string) : list string :=
  match path with
  | EmptyString => [EmptyString]
  | String c rest =>
      if Ascii.eqb c "/" then EmptyString :: segments rest
      else match segments rest with
           | seg :: more => String c seg :: more
           | [] => [String c EmptyString]
           end
  end.

Definition xpath_error {A} (msg : string) : result A :=
  Raise (XPathEvalError msg).

(** A name test, its prefix looked up in [prefixes]. *)
Definition name_test (prefixes : nsmap) (s : string) : result QName :=
  match split_prefix s with
  | None => xpath_error "Invalid expression"
  | Some (None, l) => Return {| ns := None; local := l |}
  | Some (Some p, l) =>
      match assoc p prefixes with
      | Some uri => Return {| ns := Some uri; local := l |}
      | None => xpath_error "Undefined namespace prefix"
      end
  end.

Fixpoint name_tests (prefixes : nsmap) (l : list string)
  : result (list QName) :=
  match l with
  | [] => Return []
  | s :: rest =>
      q ← name_test prefixes s;
      cons q <$> name_tests prefixes rest
  end.

Definition has_tag (q : QName) (e : element) : bool :=
  bool_decide (tag e = q).

(** The elements a chain of child steps by name selects from [e]. *)
Definition select (e : element) (steps : list string) (prefixes : nsmap)
  : result (list element) :=
  qs ← name_tests prefixes steps;
  Return (fold_left
            (fun nodes q =>
               flat_map (fun n => List.filter (has_tag q) (children n))
                        nodes)
            qs [e]).

(** The text nodes that are children of [e]: its text, then the tail of
    each of its children. *)
Definition text_nodes (e : element) : list string :=
  (option_list (text e) ++ flat_map (fun c => option_list (tail c))
                                    (children e))%list.

(** [count(path)], if [path] is written so. *)
Definition count_of (path : string) : option string :=
  if String.prefix "count(" path
  then
    let argument := String.substring 6 (String.length path - 6) path in
    match List.rev (list_ascii_of_string argument) with
    | ")"%char :: inner => Some (string_of_list_ascii (List.rev inner))
    | _ => None
    end
  else None.

(** [element.xpath] for [//name] on the document element, for
    [name/name/...] and [name/.../text()] on any element, and for
    [count] of such a chain of names. *)
Definition evaluate (e : element) (path : string) (prefixes : nsmap)
  : result xpath_result :=
  match count_of path with
  | Some inner =>
      nodes ← select e (segments inner) prefixes;
      Return (XFloat (bool_decide (length nodes = 0)))
  | None =>
      match segments path with
      | [EmptyString; EmptyString; name] =>
          q ← name_test prefixes name;
          Return (XList (map XElement (List.filter (has_tag q) (iter e))))
      | steps =>
          match List.rev steps with
          | "text()" :: before =>
              nodes ← select e (List.rev before) prefixes;
              Return (XList (map XSmartString (flat_map text_nodes nodes)))
          | _ =>
              nodes ← select e steps prefixes;
              Return (XList (map XElement nodes))
          end
      end
  end.

Definition lxml : Lxml :=
  {| str_encode := encode;
     XML := parse;
     tostring_bytes := write_tree;
     xpath := evaluate |}.

End Reference.

(** ** Notions the properties are stated with *)

(** The tree read back from a serialised tree: character data that is the
    empty string is no character data. *)
Definition nonempty (x : option string) : option string :=
  match x with
  | Some EmptyString => None
  | _ => x
  end.

Fixpoint canon (e : element) : element :=
  Element (tag e) (attrib e) (nonempty (text e)) (map canon (children e))
          (nonempty (tail e)).

Definition without_tail (e : element) : element :=
  Element (tag e) (attrib e) (text e) (children e) None.

(** Where [Reference.build] stands once it has read the tokens of [e]:
    [e] is the document element, with its tail still to read, or the
    last child of the innermost open element. *)
Definition built (stack : list Reference.frame) (e : element)
    (rest : list Reference.token) : result element :=
  match stack with
  | [] =>
      Reference.build [] (Some (without_tail (canon e)))
                      (Reference.chars (tail e) ++ rest)%list
  | parent :: outer =>
      Reference.build (Reference.add_child (canon e) parent :: outer) None
                      rest
  end.

(** The elements [//s:Fault] selects under [SOAP_NAMESPACES]. *)
Definition is_fault (e : element) : bool :=
  bool_decide (tag e = {| ns := Some SOAP_NS; local := "Fault" |}).

(** What the properties below use of lxml: [//s:Fault] on the document
    element selects the [Fault] elements of the envelope namespace in
    document order, and a serialised tree is read back as it was. *)
Definition finds_faults (L : Lxml) : Prop :=
  forall root : element,
    xpath root "//s:Fault" SOAP_NAMESPACES
    = Return (XList (map XElement (List.filter is_fault (iter root)))).

Definition reads_back (L : Lxml) : Prop :=
  forall (tree : element) (encoding : string) (data : bytes),
    Reference.serialisable tree = true -> tail tree = None ->
    tostring tree encoding false = Return data ->
    XML data = Return (canon tree).

(** A tree element by element in document order: the depth, the tag,
    the attributes and the text of each. *)
Fixpoint outline (depth : nat) (e : element)
  : list (nat * QName * list (string * string) * option string) :=
  (depth, tag e, attrib e, text e)
  :: flat_map (outline (Datatypes.S depth)) (children e).

Definition soap (name : string) : QName :=
  {| ns := Some SOAP_NS; local := name |}.

Definition types (name : string) : QName :=
  {| ns := Some TYPE_NS; local := name |}.

(** The header with the version marker and nothing else. *)
Definition version_outline
  : list (nat * QName * list (string * string) * option string) :=
  [(0, soap "Header", [], None);
   (1, types "RequestServerVersion", [("Version", "Exchange2010")], None)].

(** The header with the time zone definition of the Pacific zone: two
    periods, one group of two recurring transitions, and two transitions
    to that group. *)
Definition availability_outline
  : list (nat * QName * list (string * string) * option string) :=
  [(0, soap "Header", [], None);
   (1, types "RequestServerVersion", [("Version", "Exchange2010")], None);
   (1, types "TimeZoneContext", [], None);
   (2, types "TimeZoneDefinition",
    [("Name", "(UTC-08:00) Pacific Time (US &amp; Canada)");
     ("Id", "Pacific Standard Time")], None);
   (3, types "Periods", [], None);
   (4, types "Period",
    [("Bias", "P0DT8H0M0.0S"); ("Name", "Standard"); ("Id", "Std")], None);
   (4, types "Period",
    [("Bias", "P0DT7H0M0.0S"); ("Name", "Daylight"); ("Id", "Dlt/1")], None);
   (3, types "TransitionsGroups", [], None);
   (4, types "TransitionsGroup", [("Id", "0")], None);
   (5, types "RecurringDayTransition", [], None);
   (6, types "To", [("Kind", "Period")], Some "Dlt/1");
   (6, types "TimeOffset", [], Some "P0DT2H0M0.0S");
   (6, types "Month", [], Some "3");
   (6, types "DayOfWeek", [], Some "Sunday");
   (6, types "Occurrence", [], Some "1");
   (5, types "RecurringDayTransition", [], None);
   (6, types "To", [("Kind", "Period")], Some "Std");
   (6, types "TimeOffset", [], Some "P0DT2H0M0.0S");
   (6, types "Month", [], Some "11");
   (6, types "DayOfWeek", [], Some "Sunday");
   (6, types "Occurrence", [], Some "1");
   (3, types "Transitions", [], None);
   (4, types "Transition", [], None);
   (5, types "To", [("Kind", "Group")], Some "0");
   (4, types "AbsoluteDateTransition", [], None);
   (5, types "To", [("Kind", "Group")], Some "0");
   (5, types "DateTime", [], Some "2015-03-01T08:00:00.000Z")].

(** How [store] leaves [result[key]], by the values appended for the
    field. *)
Definition collapse (result_for_node : list value) : option value :=
  match result_for_node with
  | [] => None
  | [v] => Some v
  | _ => Some (VList result_for_node)
  end.

(** The element children of [e] named [name] in the types namespace, at
    any depth. *)
Definition count_types (name : string) (e : element) : nat :=
  length (List.filter
            (fun c => bool_decide (tag c = {| ns := Some TYPE_NS;
                                              local := name |}))
            (iter e)).

(** The header drawn in the docstring of [user_availability_header]. *)
Definition recurring (to_ month occurrence : string) : maker_arg :=
  Child (T "RecurringDayTransition" [
    Child (T "To" [Attrs [("Kind", "Period")]; Text to_]);
    Child (T "TimeOffset" [Text "P0DT2H0M0.0S"]);
    Child (T "Month" [Text month]);
    Child (T "DayOfWeek" [Text "Sunday"]);
    Child (T "Occurrence" [Text occurrence])
  ]).

Definition period (bias name id : string) : maker_arg :=
  Child (T "Period" [Attrs [("Bias", bias); ("Name", name); ("Id", id)]]).

Definition documented_header : element :=
  S "Header" [
    Child (T "RequestServerVersion" [Attrs [("Version", "Exchange2010")]]);
    Child (T "TimeZoneContext" [
      Child (T "TimeZoneDefinition" [
        Attrs [("Name", "(UTC-08:00) Pacific Time (US & Canada)");
               ("Id", "Pacific Standard Time")];
        Child (T "Periods" [
          period "P0DT8H0M0.0S" "Standard" "Std";
          period "P0DT7H0M0.0S" "Daylight" "Dlt/1";
          period "P0DT7H0M0.0S" "Daylight" "Dlt/2007"
        ]);
        Child (T "TransitionsGroups" [
          Child (T "TransitionsGroup" [
            Attrs [("Id", "0")];
            recurring "Dlt/1" "4" "1";
            recurring "Std" "10" "-1"
          ]);
          Child (T "TransitionsGroup" [
            Attrs [("Id", "1")];
            recurring "Dlt/2007" "3" "2";
            recurring "Std" "11" "1"
          ])
        ]);
        Child (T "Transitions" [
          Child (T "Transition" [
            Child (T "To" [Attrs [("Kind", "Group")]; Text "0"])
          ]);
          Child (T "AbsoluteDateTransition" [
            Child (T "To" [Attrs [("Kind", "Group")]; Text "1"]);
            Child (T "DateTime" [Text "2007-01-01T08:00:00.000Z"])
          ])
        ])
      ])
    ])
  ].

(** *** The fixed format [YYYY-MM-DDTHH:MM:SSZ] *)

Definition digit_char (n : Z) : ascii := ascii_of_N (48 + Z.to_N n).

Definition pad2 (n : Z) (rest : string) : string :=
  String (digit_char (n / 10)) (String (digit_char (n mod 10)) rest).

Definition pad4 (n : Z) (rest : string) : string :=
  String (digit_char (n / 1000))
    (String (digit_char (n / 100 mod 10)) (pad2 (n mod 100) rest)).

(** The text of a timestamp in the fixed format, fields zero-padded. *)
Definition isoformat (Y M D h m s : Z) : string :=
  pad4 Y (String "-" (pad2 M (String "-" (pad2 D (String "T"
    (pad2 h (String ":" (pad2 m (String ":" (pad2 s "Z")))))))))).

(** [s] has the shape of the fixed format: twenty characters, digits
    where the format has a field, and the format's own separators. *)
Definition fixed_format (s : string) : bool :=
  match list_ascii_of_string s with
  | [y1; y2; y3; y4; a; m1; m2; b; d1; d2; t; h1; h2; c; n1; n2; d; s1; s2; z] =>
      forallb Builtins.is_digit
              [y1; y2; y3; y4; m1; m2; d1; d2; h1; h2; n1; n2; s1; s2]
      && bool_decide ([a; b; t; c; d; z]
                      = ["-"; "-"; "T"; ":"; ":"; "Z"]%char)
  | _ => false
  end.

(** *** Fields of an extraction call *)

Section Fields.

Context {L : Lxml}.

(** What the loop over a result goes through: nothing when the result is
    falsy and the loop is not entered, else the objects of the list or
    the characters of the string; a number or a bool that is not falsy
    cannot be gone through. *)
Definition loop_nodes (nodes : xpath_result) : option (list xpath_item) :=
  if truthy nodes then
    match iterate nodes with
    | Return sequence => Some sequence
    | Raise _ => None
    end
  else Some [].

(** The field's path evaluates in [element], and [nodes] is what the loop
    goes through. *)
Definition selects (element : element) (namespace_map : nsmap)
    (item : gmap string string) (nodes : list xpath_item) : Prop :=
  exists path found, item !! "xpath" = Some path
                     /\ xpath element path namespace_map = Return found
                     /\ loop_nodes found = Some nodes.

(** Every field of the property map selects nodes, and the text of each
    of them converts under the field's cast. *)
Definition all_convert (element : element) (namespace_map : nsmap)
    (property_map : list (string * gmap string string)) : Prop :=
  Forall (fun kv =>
            exists nodes, selects element namespace_map (snd kv) nodes
                          /\ Forall (fun n => returns (cast_node (snd kv) n))
                                    nodes)
         property_map.

(** Where an exception of an extraction call comes from: the lookup of
    the path of a field, the evaluation of that path, the start of the
    loop over what it gave, or the conversion of a node the loop went
    through. *)
Definition raised_in (element : element) (namespace_map : nsmap)
    (property_map : list (string * gmap string string)) (e : exn) : Prop :=
  exists key item, In (key, item) property_map /\
    ((item !! "xpath" = None /\ e = KeyError "xpath")
     \/ (exists path, item !! "xpath" = Some path
                      /\ xpath element path namespace_map = Raise e)
     \/ (exists path found, item !! "xpath" = Some path
                            /\ xpath element path namespace_map = Return found
                            /\ truthy found = true
                            /\ iterate found = Raise e)
     \/ (exists nodes n, selects element namespace_map item nodes
                         /\ In n nodes /\ cast_node item n = Raise e)).

End Fields.

(** *** Documents the examples run on *)

Definition bool_item : gmap string string :=
  {[ "xpath" := "t:Flag"; "cast" := "bool" ]}.

Definition int_item : gmap string string :=
  {[ "xpath" := "t:Count"; "cast" := "int" ]}.

Definition name_item : gmap string string := {[ "xpath" := "t:Name" ]}.

(** [<t:Item><t:Flag/><t:Count>abc</t:Count>
     <t:Name>Alice</t:Name><t:Name>Bob</t:Name></t:Item>] *)
Definition sample_item : element :=
  T "Item" [Child (T "Flag" []);
            Child (T "Count" [Text "abc"]);
            Child (T "Name" [Text "Alice"]);
            Child (T "Name" [Text "Bob"])].

(** A response with two faults, the second one nested deeper. *)
Definition fault_response : string :=
  "<s:Envelope xmlns:s=" ++ String Reference.quote (SOAP_NS
  ++ String Reference.quote ("><s:Body><s:Fault>Server busy</s:Fault>"
  ++ "<detail><s:Fault>second</s:Fault></detail></s:Body></s:Envelope>")).

Definition plain_response : string :=
  "<s:Envelope xmlns:s=" ++ String Reference.quote (SOAP_NS
  ++ String Reference.quote "><s:Body><ok/></s:Body></s:Envelope>").

(** A body for the envelope. *)
Definition sample_body : element :=
  Element {| ns := Some "http://schemas.microsoft.com/exchange/services/2006/messages";
             local := "GetUserAvailabilityRequest" |}
          [] None
          [T "MailboxData" [Child (T "Email" [Text "a&b@example.com"])]]
          None.

(** [café], whose last character is not ASCII. *)
Definition cafe : string := "caf" ++ String (ascii_of_N 233) EmptyString.

(** ** Notions the further properties are stated with *)

(** The values stored for a field: the elements of a list, or the one
    value. *)
Definition scalars (v : value) : list value :=
  match v with
  | VList l => l
  | _ => [v]
  end.

Definition is_list (v : value) : bool :=
  match v with
  | VList _ => true
  | _ => false
  end.

(** What a value converted under [cast_as] is. *)
Definition has_kind (cast_as : option string) (v : value) : Prop :=
  if decide (cast_as = Some "datetime")
  then exists d, v = VDatetime d /\ tz d = Some utc
  else if decide (cast_as = Some "date_only_naive") then exists d, v = VDate d
  else if decide (cast_as = Some "int") then exists n, v = VInt n
  else if decide (cast_as = Some "bool") then exists b, v = VBool b
  else v = VNone \/ exists s, v = VStr s.

(** The cast is one of the four the code knows. *)
Definition converting (cast_as : option string) : Prop :=
  cast_as = Some "datetime" \/ cast_as = Some "date_only_naive"
  \/ cast_as = Some "int" \/ cast_as = Some "bool".

(** [YYYY-MM-DD], fields zero-padded, followed by [rest]. *)
Definition isodate (Y M D : Z) (rest : string) : string :=
  pad4 Y (String "-" (pad2 M (String "-" (pad2 D rest)))).

(** The fields name a day of the calendar and a time of that day. *)
Definition valid_timestamp (Y M D h m s : Z) : bool :=
  ((1 <=? Y) && (1 <=? M) && (M <=? 12) && (1 <=? D)
   && (D <=? days_in_month Y M) && (h <=? 23) && (m <=? 59) && (s <=? 59))%Z.

(** * Properties *)

Ltac unbind :=
  unfold mbind, result_bind, fmap, result_fmap, mret, result_ret, Py.bind in *.

Lemma bind_Return {A B} (m : result A) (f : A -> result B) (b : B) :
  (m ≫= f) = Return b -> exists a, m = Return a /\ f a = Return b.
Proof. unbind. destruct m as [a|e]; [eauto | discriminate]. Qed.

Lemma bind_Raise {A B} (m : result A) (f : A -> result B) (e : exn) :
  (m ≫= f) = Raise e ->
  m = Raise e \/ exists a, m = Return a /\ f a = Raise e.
Proof. unbind. destruct m as [a|e']; [eauto | intros [= ->]; auto]. Qed.

Lemma fmap_Return {A B} (m : result A) (f : A -> B) (b : B) :
  f <$> m = Return b -> exists a, m = Return a /\ b = f a.
Proof. unbind. destruct m as [a|e]; [intros [= <-]; eauto | discriminate]. Qed.

(** ** The conversion of one node *)

(** On an element the conversion reads its text. *)
Lemma cast_node_element (item : gmap string string) (e : element) :
  cast_node item (XElement e)
  = if decide (item !! "cast" = Some "datetime")
    then VDatetime <$> _parse_date (text e)
    else if decide (item !! "cast" = Some "date_only_naive")
    then VDate <$> _parse_date_only_naive (text e)
    else if decide (item !! "cast" = Some "int")
    then VInt <$> Builtins.int (text e)
    else if decide (item !! "cast" = Some "bool")
    then lowered ← Builtins.lower (text e);
         if decide (lowered = "true") then Return (VBool true)
         else Return (VBool false)
    else Return (of_text (text e)).
Proof. unfold cast_node. repeat case_decide; reflexivity. Qed.

(** On anything else a path can select (a text or attribute value, a
    namespace pair, a character of a string result) the read of [.text]
    raises, whatever the cast. *)
Lemma cast_node_non_element (item : gmap string string) (n : xpath_item) :
  (forall e, n <> XElement e) ->
  cast_node item n
  = Raise (AttributeError
             ("'" ++ type_name n ++ "' object has no attribute 'text'")).
Proof.
  intros Hn. unfold cast_node.
  destruct n as [e| | |]; [by destruct (Hn e)|..];
    repeat case_decide; reflexivity.
Qed.

Lemma cast_node_Return_element (item : gmap string string) (n : xpath_item)
    (v : value) :
  cast_node item n = Return v -> exists e, n = XElement e.
Proof.
  destruct n as [e| | |]; [eauto|..]; intros H;
    rewrite cast_node_non_element in H by discriminate; discriminate.
Qed.

(** ** The loop over the matched nodes *)

Section Nodes.

Variable item : gmap string string.

Lemma for_nodes_Return nodes acc vals :
  for_nodes item nodes acc = Return vals <->
  exists new, Forall2 (fun n v => cast_node item n = Return v) nodes new
              /\ vals = (acc ++ new)%list.
Proof.
  revert acc. induction nodes as [|n nodes IH]; intros acc; simpl.
  - split.
    + intros [= <-]. exists []. split; [constructor | by rewrite app_nil_r].
    + intros (new & Hall & ->). inversion Hall; subst.
      by rewrite app_nil_r.
  - split.
    + intros H. apply bind_Return in H as (v & Hv & H).
      apply IH in H as (new & Hall & ->). exists (v :: new).
      split; [by constructor | by rewrite <- app_assoc].
    + intros (new & Hall & ->). inversion Hall as [|? v ? new' Hv Hrest]; subst.
      rewrite Hv. unbind. apply IH. exists new'.
      split; [done | by rewrite <- app_assoc].
Qed.

Lemma for_nodes_Raise nodes acc e :
  for_nodes item nodes acc = Raise e ->
  exists n, In n nodes /\ cast_node item n = Raise e.
Proof.
  revert acc. induction nodes as [|n nodes IH]; intros acc; simpl.
  - discriminate.
  - intros H. apply bind_Raise in H as [H | (v & _ & H)].
    + exists n. auto.
    + apply IH in H as (n' & Hin & H). exists n'. auto.
Qed.

Lemma for_nodes_total nodes acc :
  Forall (fun n => returns (cast_node item n)) nodes ->
  exists new, for_nodes item nodes acc = Return (acc ++ new)%list
              /\ Forall2 (fun n v => cast_node item n = Return v) nodes new.
Proof.
  intros Hall. revert acc.
  induction Hall as [|n nodes [v Hv] _ IH]; intros acc; simpl.
  - exists []. split; [by rewrite app_nil_r | constructor].
  - rewrite Hv. unbind. destruct (IH (acc ++ [v])%list) as (new & Heq & Hall).
    exists (v :: new). split; [by rewrite Heq, <- app_assoc | by constructor].
Qed.

End Nodes.

Lemma branch_of_none vals : branch_of vals = store_none <-> vals = [].
Proof. destruct vals as [|? [|? ?]]; simpl; split; congruence. Qed.

Lemma store_lookup (result : gmap string value) key vals :
  vals <> [] -> store result key vals !! key = collapse vals.
Proof.
  destruct vals as [|v [|w vals]]; [done | |]; intros _; simpl;
    apply lookup_insert_eq.
Qed.

Lemma store_lookup_ne (result : gmap string value) key vals k :
  key <> k -> store result key vals !! k = result !! k.
Proof.
  intros Hne. destruct vals as [|v [|w vals]]; simpl;
    by apply lookup_insert_ne.
Qed.

(** C10: a field whose path selects n >= 1 nodes, all of which convert,
    gets exactly n values, one per node and in their order; the branch of
    [_xpath_to_dict] that assigns [None] for an empty [result_for_node]
    is therefore never the one taken, and the key is bound to the scalar
    or to the list. *)
Theorem matched_count_is_value_count (item : gmap string string)
    (nodes : list xpath_item) :
  nodes <> [] ->
  Forall (fun n => returns (cast_node item n)) nodes ->
  exists vals,
    for_nodes item nodes [] = Return vals
    /\ length vals = length nodes
    /\ Forall2 (fun n v => cast_node item n = Return v) nodes vals
    /\ branch_of vals <> store_none
    /\ forall (result : gmap string value) key,
         store result key vals !! key = collapse vals
         /\ collapse vals <> None.
Proof.
  intros Hne Hall.
  destruct (for_nodes_total item nodes [] Hall) as (vals & Heq & Hvals).
  exists vals. simpl in Heq.
  assert (Hlen : length vals = length nodes)
    by (symmetry; eapply Forall2_length; eauto).
  assert (Hvne : vals <> []).
  { intros ->. destruct nodes; [done | discriminate]. }
  repeat split; auto.
  - by rewrite branch_of_none.
  - by apply store_lookup.
  - destruct vals as [|? [|? ?]]; simpl; congruence.
Qed.

Lemma matched_count_is_value_count_witness :
  exists vals,
    for_nodes name_item [XElement (T "Name" [Text "Alice"]);
                         XElement (T "Name" [Text "Bob"])] []
    = Return vals
    /\ length vals = 2.
Proof.
  destruct (matched_count_is_value_count name_item
              [XElement (T "Name" [Text "Alice"]);
               XElement (T "Name" [Text "Bob"])])
    as (vals & H & Hlen & _).
  - discriminate.
  - repeat constructor; eexists; reflexivity.
  - exists vals. split; [exact H | exact Hlen].
Defined.

(** ** The loop over the property map *)

Lemma iterate_nonempty (found : xpath_result) (sequence : list xpath_item) :
  truthy found = true -> iterate found = Return sequence -> sequence <> [].
Proof.
  destruct found as [[|x l]|z|b|[|c s]]; simpl; try discriminate;
    intros _ [= <-]; discriminate.
Qed.

Section Keys.

Context {L : Lxml}.

Variables (el : element) (ns : nsmap).

Lemma selects_truthy item path found sequence :
  item !! "xpath" = Some path ->
  xpath el path ns = Return found ->
  truthy found = true ->
  iterate found = Return sequence ->
  selects el ns item sequence.
Proof.
  intros Hpath Hfound Htruthy Hseq. exists path, found.
  unfold loop_nodes. by rewrite Htruthy, Hseq.
Qed.

Lemma selects_falsy item path found :
  item !! "xpath" = Some path ->
  xpath el path ns = Return found ->
  truthy found = false ->
  selects el ns item [].
Proof.
  intros Hpath Hfound Htruthy. exists path, found.
  unfold loop_nodes. by rewrite Htruthy.
Qed.

Lemma for_key_Return key item (r r' : gmap string value) :
  for_key el ns key item r = Return r' ->
  exists nodes vals,
    selects el ns item nodes
    /\ Forall2 (fun n v => cast_node item n = Return v) nodes vals
    /\ r' = match vals with [] => r | _ => store r key vals end.
Proof.
  unfold for_key, getitem. intros H.
  apply bind_Return in H as (path & Hpath & H).
  destruct (item !! "xpath") as [p|] eqn:Hp; [|discriminate].
  injection Hpath as ->.
  apply bind_Return in H as (found & Hfound & H).
  destruct (truthy found) eqn:Htruthy.
  - apply bind_Return in H as (sequence & Hseq & H).
    apply bind_Return in H as (vals & Hvals & [= <-]).
    apply for_nodes_Return in Hvals as (new & Hall & ->). simpl.
    exists sequence, new.
    repeat split; [by eapply selects_truthy | done |].
    pose proof (iterate_nonempty _ _ Htruthy Hseq) as Hne.
    inversion Hall; subst; done.
  - injection H as <-. exists [], []. repeat split; [|constructor].
    by eapply selects_falsy.
Qed.

Lemma for_key_total key item (r : gmap string value) nodes :
  selects el ns item nodes ->
  Forall (fun n => returns (cast_node item n)) nodes ->
  exists r', for_key el ns key item r = Return r'.
Proof.
  intros (path & found & Hpath & Hfound & Hloop) Hall.
  unfold for_key, getitem. rewrite Hpath. unbind. rewrite Hfound.
  unfold loop_nodes in Hloop. destruct (truthy found); [|eauto].
  destruct (iterate found) as [sequence|]; [|discriminate].
  injection Hloop as ->.
  destruct (for_nodes_total item nodes [] Hall) as (new & -> & _).
  eauto.
Qed.

Lemma for_key_Raise key item (r : gmap string value) e :
  for_key el ns key item r = Raise e ->
  raised_in el ns [(key, item)] e.
Proof.
  unfold for_key, getitem. intros H. exists key, item.
  split; [by left|].
  destruct (item !! "xpath") as [path|] eqn:Hpath.
  - unbind. destruct (xpath el path ns) as [found|e'] eqn:Hfound.
    + destruct (truthy found) eqn:Htruthy; [|discriminate].
      destruct (iterate found) as [sequence|e'] eqn:Hseq.
      * right; right; right.
        destruct (for_nodes item sequence []) as [?|e'] eqn:Hfor;
          [discriminate|].
        injection H as ->. apply for_nodes_Raise in Hfor as (n' & Hin & Hn').
        exists sequence, n'. repeat split; [by eapply selects_truthy|..]; auto.
      * injection H as ->. right; right; left. exists path, found. auto.
    + injection H as ->. right; left. eauto.
  - unbind. injection H as <-. auto.
Qed.

Lemma for_keys_Return pm (r0 r : gmap string value) :
  for_keys el ns pm r0 = Return r -> all_convert el ns pm.
Proof.
  revert r0. induction pm as [|[key item] pm IH]; intros r0; simpl.
  - constructor.
  - intros H. apply bind_Return in H as (r1 & Hkey & H).
    constructor; [|by eapply IH].
    apply for_key_Return in Hkey as (nodes & vals & Hsel & Hall & _).
    exists nodes. split; [done|]. simpl.
    clear -Hall. induction Hall; constructor; [by eexists | done].
Qed.

Lemma for_keys_lookup pm (r0 r : gmap string value) :
  NoDup (map fst pm) ->
  for_keys el ns pm r0 = Return r ->
  (forall key, ~ In key (map fst pm) -> r !! key = r0 !! key)
  /\ (forall key item, In (key, item) pm ->
        exists nodes vals,
          selects el ns item nodes
          /\ Forall2 (fun n v => cast_node item n = Return v) nodes vals
          /\ r !! key = match vals with
                        | [] => r0 !! key
                        | _ => collapse vals
                        end).
Proof.
  revert r0. induction pm as [|[key item] pm IH]; intros r0 Hnd; simpl.
  - intros [= <-]. split; [done | intros ? ? []].
  - intros H. apply bind_Return in H as (r1 & Hkey & H).
    apply NoDup_cons in Hnd as [Hnotin Hnd].
    destruct (IH r1 Hnd H) as [Hout Hin].
    apply for_key_Return in Hkey as (nodes & vals & Hsel & Hall & Hr1).
    assert (Hother : forall k, key <> k -> r1 !! k = r0 !! k).
    { intros k Hk. subst r1. destruct vals; [done|].
      by apply store_lookup_ne. }
    split.
    + intros k Hk. rewrite Hout by tauto. apply Hother. tauto.
    + intros k it [[= <- <-] | Hmem].
      * exists nodes, vals. repeat split; [done..|].
        rewrite Hout by (by rewrite <- list_elem_of_In).
        subst r1. destruct vals as [|v vals]; [done|].
        by apply store_lookup.
      * destruct (Hin k it Hmem) as (nodes' & vals' & Hsel' & Hall' & Hk).
        exists nodes', vals'. repeat split; [done..|].
        rewrite Hk. destruct vals'; [|done]. apply Hother.
        intros ->. apply Hnotin. apply list_elem_of_In.
        apply in_map_iff. by exists (k, it).
Qed.

Lemma for_keys_total pm (r0 : gmap string value) :
  all_convert el ns pm -> exists r, for_keys el ns pm r0 = Return r.
Proof.
  intros Hall. revert r0.
  induction Hall as [|[key item] pm (nodes & Hsel & Hnodes) _ IH];
    intros r0; simpl; [eauto|].
  destruct (for_key_total key item r0 nodes Hsel Hnodes) as [r1 ->].
  unbind. apply IH.
Qed.

Lemma for_keys_Raise pm (r0 : gmap string value) e :
  for_keys el ns pm r0 = Raise e -> raised_in el ns pm e.
Proof.
  revert r0. induction pm as [|[key item] pm IH]; intros r0; simpl.
  - discriminate.
  - intros H. apply bind_Raise in H as [H | (r1 & _ & H)].
    + apply for_key_Raise in H as (k & it & [[= -> ->]|[]] & Hk).
      exists k, it. split; [by left | done].
    + apply IH in H as (k & it & Hin & Hk). exists k, it.
      split; [by right | done].
Qed.

End Keys.

(** ** [_xpath_to_dict] *)

Lemma selects_functional {L : Lxml} el ns item nodes nodes' :
  selects el ns item nodes -> selects el ns item nodes' -> nodes = nodes'.
Proof.
  intros (p & f & Hp & Hf & Hl) (p' & f' & Hp' & Hf' & Hl'). congruence.
Qed.

(** A call that returns has selected nodes for every field and converted
    every one of them. *)
Lemma xpath_to_dict_Return {L : Lxml} el pm ns (r : gmap string value) :
  _xpath_to_dict el pm ns = Return r -> all_convert el ns pm.
Proof. apply for_keys_Return. Qed.

(** C1: when every field of the property map selects nodes that convert,
    [_xpath_to_dict] returns a dict that has a field's name exactly when
    its path selected at least one node; a path that selected nothing
    leaves the key absent, one value is stored as it is, and several are
    stored as the list of the values in the order of the nodes. *)
Theorem xpath_to_dict_fields {L : Lxml} (el : element)
    (pm : list (string * gmap string string)) (ns : nsmap) :
  NoDup (map fst pm) ->
  all_convert el ns pm ->
  exists r : gmap string value,
    _xpath_to_dict el pm ns = Return r
    /\ (forall key, ~ In key (map fst pm) -> r !! key = None)
    /\ (forall key item, In (key, item) pm ->
          exists nodes vals,
            selects el ns item nodes
            /\ Forall2 (fun n v => cast_node item n = Return v) nodes vals
            /\ (is_Some (r !! key) <-> nodes <> [])
            /\ (nodes = [] -> r !! key = None)
            /\ (forall v, vals = [v] -> r !! key = Some v)
            /\ (1 < length vals -> r !! key = Some (VList vals))).
Proof.
  intros Hnd Hall. unfold _xpath_to_dict.
  destruct (for_keys_total el ns pm ∅ Hall) as [r Hr].
  exists r. split; [done|].
  destruct (for_keys_lookup el ns pm ∅ r Hnd Hr) as [Hout Hin].
  split; [intros key Hkey; by rewrite Hout|].
  intros key item Hmem.
  destruct (Hin key item Hmem) as (nodes & vals & Hsel & Hvals & Hkey).
  exists nodes, vals. split; [done|]. split; [done|].
  pose proof (Forall2_length _ _ _ Hvals) as Hlen.
  destruct vals as [|v [|w vals]]; destruct nodes as [|n nodes];
    try discriminate Hlen; rewrite Hkey; simpl.
  - rewrite lookup_empty.
    repeat split; try done; try (by intros []); intros; lia.
  - repeat split; try done; try (by eexists); try congruence; intros; lia.
  - repeat split; try done; by eexists.
Qed.

Lemma xpath_to_dict_fields_witness :
  exists r : gmap string value,
    @_xpath_to_dict Reference.lxml sample_item
       [("name", name_item); ("absent", {[ "xpath" := "t:Missing" ]});
        ("count", {[ "xpath" := "t:Count" ]})] SOAP_NAMESPACES = Return r
    /\ r !! "other" = None.
Proof.
  destruct (@xpath_to_dict_fields Reference.lxml sample_item
              [("name", name_item); ("absent", {[ "xpath" := "t:Missing" ]});
               ("count", {[ "xpath" := "t:Count" ]})] SOAP_NAMESPACES)
    as (r & Hr & Hout & _).
  - apply (bool_decide_unpack _). vm_compute. exact I.
  - repeat constructor; simpl.
    + eexists. split; [exists "t:Name"; eexists; repeat split; reflexivity|].
      repeat constructor; eexists; reflexivity.
    + eexists.
      split; [exists "t:Missing"; eexists; repeat split; reflexivity|].
      constructor.
    + eexists. split; [exists "t:Count"; eexists; repeat split; reflexivity|].
      repeat constructor; eexists; reflexivity.
  - exists r. split; [exact Hr|]. apply Hout. simpl.
    intros [H|[H|[H|[]]]]; discriminate H.
Defined.






(** ** The [bool] cast *)

(** On a node that has text, the cast is [True] exactly for the texts
    that are ["true"] once lowered, and [False] for every other text. *)
Lemma bool_cast_of_text (item : gmap string string) (n : element)
    (s : string) :
  item !! "cast" = Some "bool" ->
  text n = Some s ->
  cast_node item (XElement n)
  = Return (VBool (bool_decide (Builtins.str_lower s = "true"))).
Proof.
  intros Hcast Hs. unfold cast_node. rewrite Hcast. cbn [node_text].
  rewrite Hs.
  repeat (case_decide; [discriminate|]). case_decide; [|done].
  simpl. unbind. case_decide as Hlow.
  - by rewrite bool_decide_eq_true_2.
  - by rewrite bool_decide_eq_false_2.
Qed.

Lemma bool_cast_examples :
  map (fun s => cast_node bool_item (XElement (T "Flag" [Text s])))
      ["True"; "tRuE"; "no"; " true"; "1"]
  = map (fun b => Return (VBool b)) [true; true; false; false; false].
Proof. reflexivity. Qed.

(** A node without text, such as [<t:Flag/>], makes the cast raise. *)
Lemma bool_cast_of_no_text (item : gmap string string) (n : element) :
  item !! "cast" = Some "bool" ->
  text n = None ->
  cast_node item (XElement n)
  = Raise (AttributeError "'NoneType' object has no attribute 'lower'").
Proof.
  intros Hcast Hs. unfold cast_node. rewrite Hcast. cbn [node_text].
  rewrite Hs.
  repeat (case_decide; [discriminate|]). by case_decide.
Qed.

(** C6 at [<t:Item><t:Flag/>...</t:Item>]: the [bool] cast of the empty
    [Flag] element does not give [False]; the call raises
    [AttributeError]. *)
Theorem bool_cast_raises_on_empty_element :
  text (T "Flag" []) = None
  /\ @xpath Reference.lxml sample_item "t:Flag" SOAP_NAMESPACES
     = Return (XList [XElement (T "Flag" [])])
  /\ @_xpath_to_dict Reference.lxml sample_item [("flag", bool_item)]
                     SOAP_NAMESPACES
     = Raise (AttributeError "'NoneType' object has no attribute 'lower'").
Proof. repeat split; reflexivity. Qed.

(** ** Dates *)

Section Strptime.

Import Builtins.

Lemma Z_below (P : Z -> Prop) (n : nat) :
  (forall k : nat, (k < n)%nat -> P (Z.of_nat k)) ->
  forall z : Z, (0 <= z < Z.of_nat n)%Z -> P z.
Proof.
  intros H z Hz. rewrite <- (Z2Nat.id z) by lia. apply H. lia.
Qed.

Tactic Notation "below" integer(n) tactic(tac) :=
  let k := fresh "k" in
  let Hk := fresh "Hk" in
  match goal with
  | |- forall z : Z, (0 <= z < ?b)%Z -> @?P z =>
      apply (Z_below P (Z.to_nat b)); simpl Z.to_nat
  end;
  intros k Hk; do n (destruct k as [|k]; [tac|]); lia.

Lemma digit_char_spec (k : Z) :
  (0 <= k < 10)%Z ->
  is_digit (digit_char k) = true /\ digit_value (digit_char k) = k.
Proof. revert k. below 10 (split; reflexivity). Qed.

Lemma four_pad4 (Y : Z) (rest : string) :
  (0 <= Y <= 9999)%Z -> four (pad4 Y rest) = [(Y, rest)].
Proof.
  intros HY. unfold pad4, pad2, four.
  destruct (digit_char_spec (Y / 1000)) as [-> ->];
    [Z.div_mod_to_equations; lia|].
  destruct (digit_char_spec (Y / 100 mod 10)) as [-> ->];
    [Z.div_mod_to_equations; lia|].
  destruct (digit_char_spec (Y mod 100 / 10)) as [-> ->];
    [Z.div_mod_to_equations; lia|].
  destruct (digit_char_spec (Y mod 100 mod 10)) as [-> ->];
    [Z.div_mod_to_equations; lia|].
  simpl. do 2 f_equal. Z.div_mod_to_equations; lia.
Qed.

Ltac step := simpl; rewrite ?app_nil_r; reflexivity.

Lemma matches_dY ds rest f (Y : Z) :
  (0 <= Y <= 9999)%Z ->
  matches (dY :: lit "-" :: ds) (pad4 Y (String "-" rest)) f
  = matches ds rest (set_field dY Y f).
Proof.
  intros HY. cbn [matches alternatives]. rewrite four_pad4 by done. step.
Qed.

Lemma matches_dm ds rest f (M : Z) :
  (1 <= M <= 12)%Z ->
  matches (dm :: lit "-" :: ds) (pad2 M (String "-" rest)) f
  = matches ds rest (set_field dm M f).
Proof.
  intros HM. assert (H0 : (0 <= M < 13)%Z) by lia. revert M H0 HM.
  below 13 (intros; first [lia | step]).
Qed.

Lemma matches_dd ds rest f (D : Z) :
  (1 <= D <= 31)%Z ->
  matches (dd :: lit "T" :: ds) (pad2 D (String "T" rest)) f
  = matches ds rest (set_field dd D f).
Proof.
  intros HD. assert (H0 : (0 <= D < 32)%Z) by lia. revert D H0 HD.
  below 32 (intros; first [lia | step]).
Qed.

Lemma matches_dH ds rest f (h : Z) :
  (0 <= h <= 23)%Z ->
  matches (dH :: lit ":" :: ds) (pad2 h (String ":" rest)) f
  = matches ds rest (set_field dH h f).
Proof.
  intros Hh. assert (H0 : (0 <= h < 24)%Z) by lia. clear Hh. revert h H0.
  below 24 (step).
Qed.

Lemma matches_dM ds rest f (m : Z) :
  (0 <= m <= 59)%Z ->
  matches (dM :: lit ":" :: ds) (pad2 m (String ":" rest)) f
  = matches ds rest (set_field dM m f).
Proof.
  intros Hm. assert (H0 : (0 <= m < 60)%Z) by lia. clear Hm. revert m H0.
  below 60 (step).
Qed.

Lemma matches_dS ds rest f (s : Z) :
  (0 <= s <= 59)%Z ->
  matches (dS :: lit "Z" :: ds) (pad2 s (String "Z" rest)) f
  = matches ds rest (set_field dS s f).
Proof.
  intros Hs. assert (H0 : (0 <= s < 60)%Z) by lia. clear Hs. revert s H0.
  below 60 (step).
Qed.

Lemma days_in_month_le (Y M : Z) : (days_in_month Y M <= 31)%Z.
Proof.
  unfold days_in_month.
  repeat match goal with |- context [if ?b then _ else _] => destruct b end;
    lia.
Qed.

(** A text in the fixed format that names a date and a time of day is
    read as that date and time. *)
Lemma strptime_isoformat (Y M D h m s : Z) :
  (1 <= Y <= 9999)%Z -> (1 <= M <= 12)%Z ->
  (1 <= D <= days_in_month Y M)%Z ->
  (0 <= h <= 23)%Z -> (0 <= m <= 59)%Z -> (0 <= s <= 59)%Z ->
  strptime (Some (isoformat Y M D h m s)) EXCHANGE_DATE_FORMAT
  = Return {| year := Y; month := M; day := D; hour := h; minute := m;
              second := s; microsecond := 0; tz := None |}.
Proof.
  intros HY HM HD Hh Hm Hs.
  pose proof (days_in_month_le Y M) as Hdays.
  unfold strptime, isoformat.
  change (parse_format false EXCHANGE_DATE_FORMAT)
    with (Some [dY; lit "-"; dm; lit "-"; dd; lit "T";
                dH; lit ":"; dM; lit ":"; dS; lit "Z"]%char).
  cbv beta iota.
  rewrite matches_dY, matches_dm, matches_dd, matches_dH, matches_dM,
    matches_dS by lia.
  cbn [matches set_field initial year month day hour minute second
       microsecond tz]. unfold construct. cbn [year month day second].
  rewrite (proj2 (Z.ltb_ge Y 1)) by lia.
  rewrite (proj2 (Z.ltb_ge (days_in_month Y M) D)) by lia.
  rewrite (proj2 (Z.ltb_ge 59 s)) by lia.
  reflexivity.
Qed.

Lemma strptime_raises (s format : string) (e : exn) :
  strptime (Some s) format = Raise e -> exists why, e = ValueError why.
Proof.
  unfold strptime, construct.
  destruct (parse_format false format); [|intros [= <-]; eauto].
  destruct (matches _ _ _) as [|[f [|c rest]] ?]; try (intros [= <-]; eauto).
  repeat match goal with |- context [if ?b then _ else _] => destruct b end;
    try discriminate; intros [= <-]; eauto.
Qed.

End Strptime.

(** [_parse_date] returns what [strptime] read, tagged UTC, and raises
    what [strptime] raised. *)
Lemma parse_date_strptime (x : option string) :
  match _parse_date x with
  | Return d =>
      exists naive, strptime x EXCHANGE_DATE_FORMAT = Return naive
                    /\ d = replace_tzinfo naive utc
  | Raise e => strptime x EXCHANGE_DATE_FORMAT = Raise e
  end.
Proof.
  unfold _parse_date. unbind.
  destruct (strptime x EXCHANGE_DATE_FORMAT); eauto.
Qed.

(** C8, as the code has it: every text in the fixed format
    [YYYY-MM-DDTHH:MM:SSZ] that names a date and a time of day is read as
    that timestamp; whatever text is accepted, the timestamp returned is
    tagged UTC; and a text that is not accepted raises the [ValueError] of
    [strptime] itself.  (The accepted texts are those [strptime] matches
    against the format, which are more than the fixed format.) *)
Theorem parse_date_fixed_format (Y M D h m s : Z) :
  (1 <= Y <= 9999)%Z -> (1 <= M <= 12)%Z ->
  (1 <= D <= days_in_month Y M)%Z ->
  (0 <= h <= 23)%Z -> (0 <= m <= 59)%Z -> (0 <= s <= 59)%Z ->
  _parse_date (Some (isoformat Y M D h m s))
  = Return {| year := Y; month := M; day := D; hour := h; minute := m;
              second := s; microsecond := 0; tz := Some utc |}
  /\ (forall text d, _parse_date (Some text) = Return d -> tz d = Some utc)
  /\ (forall text e,
        _parse_date (Some text) = Raise e ->
        strptime (Some text) EXCHANGE_DATE_FORMAT = Raise e
        /\ exists why, e = ValueError why).
Proof.
  intros HY HM HD Hh Hm Hs. split; [|split].
  - unfold _parse_date. rewrite strptime_isoformat by done. reflexivity.
  - intros text d Hd. pose proof (parse_date_strptime (Some text)) as H.
    rewrite Hd in H. destruct H as (naive & _ & ->). reflexivity.
  - intros text e He. pose proof (parse_date_strptime (Some text)) as H.
    rewrite He in H. split; [done|]. by eapply strptime_raises.
Qed.

Lemma parse_date_fixed_format_witness :
  _parse_date (Some "2013-05-01T00:00:00Z")
  = Return {| year := 2013; month := 5; day := 1; hour := 0; minute := 0;
              second := 0; microsecond := 0; tz := Some utc |}.
Proof.
  apply (parse_date_fixed_format 2013 5 1 0 0 0);
    vm_compute; split; discriminate.
Defined.

(** C8, as claimed, fails: a text that is not in the fixed format (its
    month, day, hour, minute and second have one digit) is accepted. *)
Lemma parse_date_accepts_other_formats :
  fixed_format "2013-5-1T0:0:0Z" = false
  /\ _parse_date (Some "2013-5-1T0:0:0Z")
     = Return {| year := 2013; month := 5; day := 1; hour := 0; minute := 0;
                 second := 0; microsecond := 0; tz := Some utc |}.
Proof. split; reflexivity. Qed.

Lemma parse_date_examples :
  _parse_date (Some "2013-05-01t00:00:00z")
  = _parse_date (Some "2013-05-01T00:00:00Z")
  /\ _parse_date (Some "2013-05-01T00:00:00")
     = Raise (ValueError (TimeDataDoesNotMatch "2013-05-01T00:00:00"
                                               EXCHANGE_DATE_FORMAT))
  /\ _parse_date (Some "2013-02-30T00:00:00Z")
     = Raise (ValueError (OutOfRange "day"))
  /\ _parse_date (Some "2013-05-01T00:00:00Z ")
     = Raise (ValueError (UnconvertedDataRemains " ")).
Proof. repeat split; reflexivity. Qed.

(** ** The date-only cast *)

Lemma substring_app (n : nat) (s ext : string) :
  n <= String.length s -> substring 0 n (s ++ ext) = substring 0 n s.
Proof.
  revert s. induction n as [|n IH]; intros s Hn.
  - destruct s; simpl; [by destruct ext | done].
  - destruct s as [|c s]; simpl in *; [lia|]. f_equal. apply IH. lia.
Qed.

Lemma date_only_strptime (s : string) :
  _parse_date_only_naive (Some s)
  = date_of <$> strptime (Some (substring 0 10 s)) "%Y-%m-%d".
Proof. reflexivity. Qed.

(** C9: [_parse_date_only_naive] reads the first ten characters of the
    text and nothing else: it is [strptime] of that prefix against
    [%Y-%m-%d], turned into a date (year, month, day, with no time and no
    zone), so two texts that agree on their first ten characters give the
    same result. *)
Theorem date_only_reads_ten_characters (s t : string) :
  substring 0 10 s = substring 0 10 t ->
  _parse_date_only_naive (Some s) = _parse_date_only_naive (Some t)
  /\ _parse_date_only_naive (Some s)
     = date_of <$> strptime (Some (substring 0 10 s)) "%Y-%m-%d".
Proof.
  intros H. rewrite !date_only_strptime, H. split; reflexivity.
Qed.

Lemma date_only_reads_ten_characters_witness :
  _parse_date_only_naive (Some "2013-05-01T00:00:00Z")
  = _parse_date_only_naive (Some "2013-05-01 and whatever follows").
Proof.
  apply (date_only_reads_ten_characters "2013-05-01T00:00:00Z"
           "2013-05-01 and whatever follows").
  reflexivity.
Defined.

(** Whatever is appended to a text of ten characters or more is not
    read. *)
Lemma date_only_ignores_suffix (s ext : string) :
  10 <= String.length s ->
  _parse_date_only_naive (Some (s ++ ext)) = _parse_date_only_naive (Some s).
Proof.
  intros H. by rewrite !date_only_strptime, substring_app.
Qed.

Lemma date_only_examples :
  _parse_date_only_naive (Some "2013-05-01T00:00:00Z")
  = Return {| date_year := 2013; date_month := 5; date_day := 1 |}
  /\ _parse_date_only_naive (Some "2013-5-1T0:0:0Z")
     = Raise (ValueError (UnconvertedDataRemains "T0"))
  /\ _parse_date_only_naive None
     = Raise (TypeError "'NoneType' object is not subscriptable").
Proof. repeat split; reflexivity. Qed.

(** ** Elements of a document *)

Lemma element_induction (P : element -> Prop) :
  (forall q a t cs tl, Forall P cs -> P (Element q a t cs tl)) ->
  forall e, P e.
Proof.
  intros H. fix IH 1. intros [q a t cs tl]. apply H.
  induction cs as [|c cs IHcs]; constructor; [apply IH | exact IHcs].
Qed.

Lemma iter_self (e : element) : In e (iter e).
Proof. destruct e. simpl. auto. Qed.

Lemma iter_child (c e x : element) :
  In c (children e) -> In x (iter c) -> In x (iter e).
Proof.
  intros Hc Hx. destruct e as [q a t cs tl]. simpl in *. right.
  apply in_flat_map. eauto.
Qed.

(** [iter] reaches the element itself and what is below it at any
    depth, and nothing else. *)
Lemma iter_descendant (root e : element) :
  In e (iter root) <-> e = root \/ descendant e root.
Proof.
  split.
  - revert e. induction root as [q a t cs tl IH] using element_induction.
    intros e [<-|Hin]; [by left|]. right.
    apply in_flat_map in Hin as (c & Hc & Hin).
    rewrite List.Forall_forall in IH.
    destruct (IH c Hc e Hin) as [->|Hdesc].
    + by apply descendant_child.
    + by eapply descendant_deeper.
  - intros [->|Hdesc]; [apply iter_self|].
    induction Hdesc as [parent Hc | mid parent _ IH Hmid].
    + eapply iter_child; [done | apply iter_self].
    + by eapply iter_child.
Qed.

Lemma filter_find {A} (p : A -> bool) (l : list A) :
  List.filter p l = match List.find p l with
                    | Some x => x :: List.tl (List.filter p l)
                    | None => []
                    end.
Proof.
  induction l as [|x l IH]; simpl; [done|]. by destruct (p x).
Qed.

(** ** [_check_for_SOAP_fault] and [_parse] *)

Section Parse.

Context {L : Lxml}.

Lemma check_for_SOAP_fault_spec (tree : element) :
  finds_faults L ->
  _check_for_SOAP_fault tree
  = match List.find is_fault (iter tree) with
    | Some fault =>
        Raise (FailedExchangeException
                 [Some "SOAP Fault from Exchange server"; text fault])
    | None => Return tt
    end.
Proof.
  intros Hlaw. unfold _check_for_SOAP_fault. rewrite Hlaw. unbind.
  rewrite filter_find. by destruct (List.find is_fault (iter tree)).
Qed.

(** The serialisation of a tree fails in one way only. *)
Lemma tostring_Raise (tree : element) (encoding : string)
    (pretty_print : bool) (e : exn) :
  tostring tree encoding pretty_print = Raise e ->
  e = LookupError ("unknown encoding: '" ++ encoding ++ "'").
Proof.
  unfold tostring. destruct (tostring_bytes _ _ _); congruence.
Qed.

Lemma parse_of_tree (response encoding : string) (data : bytes)
    (tree : element) :
  str_encode response encoding = Return data ->
  XML data = Return tree ->
  _parse response encoding
  = (_check_for_SOAP_fault tree ≫= fun _ =>
     tostring tree encoding true ≫= fun _ => Return tree).
Proof.
  intros Hdata Htree. unfold _parse, _check_for_errors.
  rewrite Hdata. unbind. by rewrite Htree.
Qed.

(** C2 on the code: when the response text encodes and parses to a tree,
    [_parse] raises [FailedExchangeException] with the text of the first
    [Fault] element of the envelope namespace, in document order,
    whenever the tree has such an element at any depth, the document
    element included.  When there is none, the tree is serialised under
    [encoding] for the log before it is returned: [_parse] returns the
    tree when that serialisation returns, and raises its [LookupError]
    instead of returning the tree when the serialiser does not know the
    encoding. *)
Theorem parse_after_fault_check (response encoding : string)
    (data : bytes) (tree : element) :
  finds_faults L ->
  str_encode response encoding = Return data ->
  XML data = Return tree ->
  match List.find is_fault (iter tree) with
  | Some fault =>
      _parse response encoding
      = Raise (FailedExchangeException
                 [Some "SOAP Fault from Exchange server"; text fault])
  | None =>
      match tostring tree encoding true with
      | Return _ => _parse response encoding = Return tree
      | Raise e =>
          _parse response encoding = Raise e
          /\ e = LookupError ("unknown encoding: '" ++ encoding ++ "'")
      end
  end
  /\ ((exists e, (e = tree \/ descendant e tree) /\ is_fault e = true)
      <-> List.find is_fault (iter tree) <> None).
Proof.
  intros Hlaw Hdata Htree. split.
  - rewrite (parse_of_tree _ _ _ _ Hdata Htree).
    rewrite check_for_SOAP_fault_spec by done.
    destruct (List.find is_fault (iter tree)); [done|]. unbind.
    destruct (tostring tree encoding true) as [written|e] eqn:Hlog; [done|].
    split; [done | by eapply tostring_Raise].
  - split.
    + intros (e & He & Hfault). apply iter_descendant in He.
      intros Hnone. by rewrite (find_none _ _ Hnone e He) in Hfault.
    + destruct (List.find is_fault (iter tree)) as [e|] eqn:Hfind; [|done].
      intros _. apply find_some in Hfind as [Hin Hfault].
      exists e. by rewrite <- iter_descendant.
Qed.

(** C4, as the code has it: a response text that encodes but is not
    well-formed XML makes [_parse] raise [FailedExchangeException] with
    the hint and the message of the parser; no [XMLSyntaxError] and no
    [TypeError] leaves [_parse]; and what the encoding step raises
    otherwise (a [UnicodeEncodeError], a [LookupError]) is raised by
    [_parse] as it is. *)
Theorem parse_translates_parser_errors (response encoding : string) :
  finds_faults L ->
  (forall data msg,
     str_encode response encoding = Return data ->
     XML data = Raise (XMLSyntaxError msg) ->
     _parse response encoding
     = Raise (FailedExchangeException
                [Some ("Unable to parse response from Exchange - check your login information. Error: "
                       ++ msg)]))
  /\ (forall e, _parse response encoding = Raise e ->
        (forall msg, e <> XMLSyntaxError msg)
        /\ (forall msg, e <> TypeError msg))
  /\ (forall e, str_encode response encoding = Raise e ->
        (forall msg, e <> XMLSyntaxError msg) ->
        (forall msg, e <> TypeError msg) ->
        _parse response encoding = Raise e).
Proof.
  intros Hlaw. split; [|split].
  - intros data msg Hdata Hxml. unfold _parse. rewrite Hdata. unbind.
    by rewrite Hxml.
  - intros e. unfold _parse, _check_for_errors. unbind.
    destruct (str_encode response encoding) as [data|e1].
    + destruct (XML data) as [tree|e2].
      * rewrite check_for_SOAP_fault_spec by done.
        destruct (List.find is_fault (iter tree)).
        -- intros [= <-]. split; discriminate.
        -- destruct (tostring tree encoding true) as [written|e3] eqn:Hlog;
             [discriminate|].
           intros [= <-]. apply tostring_Raise in Hlog as ->.
           split; discriminate.
      * destruct e2; intros [= <-]; split; discriminate.
    + destruct e1; intros [= <-]; split; discriminate.
  - intros e He Hx Ht. unfold _parse. rewrite He. unbind.
    destruct e; try done; [by destruct (Hx msg) | by destruct (Ht msg)].
Qed.

End Parse.

Lemma reference_finds_faults : finds_faults Reference.lxml.
Proof. intros root. reflexivity. Qed.

Lemma parse_after_fault_check_witness :
  @_parse Reference.lxml "<a/>" "unicode_escape"
  = Raise (LookupError "unknown encoding: 'unicode_escape'").
Proof.
  destruct (@parse_after_fault_check Reference.lxml "<a/>" "unicode_escape"
              (Reference.utf8 "<a/>")
              (Element {| ns := None; local := "a" |} [] None [] None))
    as [[H _] _].
  - exact reference_finds_faults.
  - reflexivity.
  - reflexivity.
  - exact H.
Defined.

Lemma parse_translates_parser_errors_witness :
  @_parse Reference.lxml "<a>" "utf-8"
  = Raise (FailedExchangeException
             [Some "Unable to parse response from Exchange - check your login information. Error: Premature end of data in tag"]).
Proof.
  destruct (@parse_translates_parser_errors Reference.lxml "<a>" "utf-8")
    as [H _].
  - exact reference_finds_faults.
  - apply (H "<a>"); reflexivity.
Defined.

(** C4, as claimed, fails: a text that the given encoding cannot encode
    makes [_parse] raise the [UnicodeEncodeError] of the codec, not
    [FailedExchangeException]. *)
Lemma parse_lets_encoding_error_escape :
  @_parse Reference.lxml cafe "ascii" = Raise (UnicodeEncodeError "ascii" 3).
Proof. reflexivity. Qed.

Lemma parse_examples :
  @_parse Reference.lxml fault_response "utf-8"
  = Raise (FailedExchangeException
             [Some "SOAP Fault from Exchange server"; Some "Server busy"])
  /\ @_parse Reference.lxml plain_response "utf-8"
  = Return (S "Envelope" [Child (S "Body" [
              Child (Element {| ns := None; local := "ok" |} [] None [] None)])])
  /\ @_parse Reference.lxml "<a></b>" "utf-8"
     = Raise (FailedExchangeException
                [Some "Unable to parse response from Exchange - check your login information. Error: Opening and ending tag mismatch"])
  /\ @_parse Reference.lxml "<a/>" "utf-9"
     = Raise (LookupError "unknown encoding: utf-9").
Proof. repeat split; reflexivity. Qed.

(** ** The envelope *)

Lemma wrap_children (exchange_xml : element) (flag : bool) :
  _wrap_soap_xml_request exchange_xml flag
  = Element {| ns := Some SOAP_NS; local := "Envelope" |} [] None
      [_exchange_header flag;
       Element {| ns := Some SOAP_NS; local := "Body" |} [] None
               [exchange_xml] None]
      None.
Proof. reflexivity. Qed.

(** C5 on the code: with the availability header asked for, the header
    of the envelope is [user_availability_header] whatever the body is,
    it starts with the version marker and holds a time zone definition
    with a list of transitions; but that definition has one transitions
    group and two periods, where the docstring of
    [user_availability_header] draws two groups and three periods, and
    both its transitions lead to group 0. *)
Theorem availability_header_has_one_group (exchange_xml : element) :
  children (_wrap_soap_xml_request exchange_xml true)
  = [user_availability_header; S "Body" [Child exchange_xml]]
  /\ head (children user_availability_header)
     = Some (T "RequestServerVersion" [Attrs [("Version", "Exchange2010")]])
  /\ count_types "TimeZoneDefinition" user_availability_header = 1
  /\ count_types "Transitions" user_availability_header = 1
  /\ count_types "RecurringDayTransition" user_availability_header = 2
  /\ count_types "Period" user_availability_header = 2
  /\ count_types "TransitionsGroup" user_availability_header = 1
  /\ count_types "TransitionsGroup" documented_header = 2
  /\ count_types "Period" documented_header = 3
  /\ user_availability_header <> documented_header.
Proof.
  repeat split; try reflexivity.
  intros H. apply (f_equal (count_types "Period")) in H.
  vm_compute in H. discriminate H.
Qed.

(** ** The reference parser reads back what the reference serialiser
       writes *)

Module ReadBack.

Import Builtins Reference.

(** *** Strings *)

Lemma append_cons (c : ascii) (a b : string) :
  String c a ++ b = String c (a ++ b).
Proof. reflexivity. Qed.

Lemma append_nil_l (b : string) : EmptyString ++ b = b.
Proof. reflexivity. Qed.

Lemma append_assoc (a b c : string) : (a ++ b) ++ c = a ++ (b ++ c).
Proof.
  induction a as [|x a IH]; [done|]. by rewrite !append_cons, IH.
Qed.

Lemma append_nil_r (a : string) : a ++ EmptyString = a.
Proof.
  induction a as [|x a IH]; [done|]. by rewrite append_cons, IH.
Qed.

Lemma length_append (a b : string) :
  String.length (a ++ b) = String.length a + String.length b.
Proof.
  induction a as [|x a IH]; [done|]. rewrite append_cons. simpl.
  by rewrite IH.
Qed.

Ltac flatten :=
  repeat (rewrite append_assoc || rewrite append_cons
          || rewrite append_nil_l).

Lemma forallb_string_impl (p q : ascii -> bool) (s : string) :
  (forall c, p c = true -> q c = true) ->
  forallb_string p s = true -> forallb_string q s = true.
Proof.
  intros Hpq. induction s as [|c s IH]; simpl; [done|].
  rewrite !andb_true_iff. intros [Hc Hs]. auto.
Qed.

Lemma span_app (p : ascii -> bool) (n : string) (d : ascii) (rest : string) :
  forallb_string p n = true -> p d = false ->
  span p (n ++ String d rest) = (n, String d rest).
Proof.
  intros Hn Hd. induction n as [|c n IH]; flatten; simpl in *.
  - by rewrite Hd.
  - apply andb_true_iff in Hn as [-> Hn]. by rewrite (IH Hn).
Qed.

Lemma uncons_same (c : ascii) (s : string) : uncons c (String c s) = Some s.
Proof. simpl. by rewrite Ascii.eqb_refl. Qed.

(** *** Character data *)

Lemma chardata_esc_char (attr : bool) (c : ascii) (rest : string) :
  xml_char c = true ->
  chardata attr None (esc_char c ++ rest)
  = prepend c <$> chardata attr None rest.
Proof.
  destruct attr; destruct c as [[] [] [] [] [] [] [] []];
    intros H; try discriminate H; reflexivity.
Qed.

Lemma chardata_esc (attr : bool) (s rest : string) :
  forallb_string xml_char s = true ->
  chardata attr None rest = Return (EmptyString, rest) ->
  chardata attr None (esc s ++ rest) = Return (s, rest).
Proof.
  intros Hs Hrest. induction s as [|c s IH]; simpl in *; [done|].
  apply andb_true_iff in Hs as [Hc Hs].
  rewrite append_assoc, chardata_esc_char, (IH Hs) by done. reflexivity.
Qed.

Lemma chardata_quote (rest : string) :
  chardata true None (String quote rest)
  = Return (EmptyString, String quote rest).
Proof. reflexivity. Qed.

Lemma chardata_tag (rest : string) :
  chardata false None (String "<" rest)
  = Return (EmptyString, String "<" rest).
Proof. reflexivity. Qed.

Lemma esc_char_head (c : ascii) (rest : string) :
  exists d tl, esc_char c ++ rest = String d tl /\ Ascii.eqb d "<" = false.
Proof.
  destruct c as [[] [] [] [] [] [] [] []]; eexists _, _; split; reflexivity.
Qed.

(** *** Names *)

Lemma ncname_is_name_char (c : ascii) :
  ncname_char c = true -> name_char c = true.
Proof. unfold name_char. by intros ->. Qed.

Lemma ncname_char_not (c d : ascii) :
  ncname_char c = true -> ncname_char d = false -> Ascii.eqb c d = false.
Proof. intros Hc Hd. destruct (Ascii.eqb_spec c d); [congruence | done]. Qed.

Lemma is_name_inv (n : string) :
  is_name n = true ->
  exists c tl, n = String c tl /\ ncname_char c = true
               /\ forallb_string name_char n = true.
Proof.
  unfold is_name. destruct n as [|c tl]; [done|]. simpl.
  rewrite andb_true_iff. intros [Hc Htl]. exists c, tl.
  split; [done|]. split; [done|]. simpl.
  rewrite (ncname_is_name_char c Hc). simpl.
  apply (forallb_string_impl ncname_char); [|done].
  apply ncname_is_name_char.
Qed.

Lemma is_name_nonempty (n : string) :
  is_name n = true -> String.eqb n EmptyString = false.
Proof. by destruct n. Qed.

(** *** Attributes *)

Lemma write_attrs_length (attrs : list (string * string)) :
  length attrs <= String.length (write_attrs attrs).
Proof.
  induction attrs as [|kv attrs IH]; simpl; [done|].
  rewrite length_append. unfold write_attr. rewrite append_cons. simpl. lia.
Qed.

Lemma attributes_write (attrs : list (string * string)) :
  forall (fuel : nat) (d : ascii) (rest : string),
    length attrs < fuel -> attrs_ok attrs = true ->
    Ascii.eqb d " " = false ->
    attributes fuel (write_attrs attrs ++ String d rest)
    = Return (attrs, String d rest).
Proof.
  induction attrs as [|[k v] attrs IH]; intros fuel d rest Hfuel Hok Hd.
  - destruct fuel as [|fuel]; [simpl in Hfuel; lia|]. simpl. by rewrite Hd.
  - destruct fuel as [|fuel]; [simpl in Hfuel; lia|].
    simpl in Hok. apply andb_true_iff in Hok as [Hkv Hok].
    apply andb_true_iff in Hkv as [Hk Hv]. simpl in Hk, Hv.
    destruct (is_name_inv k Hk) as (c & tl & Hkeq & Hc & Hkall).
    cbn [write_attrs]. unfold write_attr. cbn [fst snd]. flatten.
    cbn [attributes]. rewrite uncons_same. rewrite span_app by done. cbn [fst snd].
    rewrite uncons_same. cbn [mbind option_bind]. rewrite uncons_same.
    rewrite (is_name_nonempty k Hk).
    rewrite chardata_esc by (done || apply chardata_quote).
    unbind. cbn [fst snd]. rewrite uncons_same.
    rewrite IH by (simpl in Hfuel; done || lia). reflexivity.
Qed.

(** *** Tokens *)

Lemma write_all_app (a b : list token) :
  write_all (a ++ b)%list = write_all a ++ write_all b.
Proof.
  induction a as [|t a IH]; simpl; [done|]. by rewrite IH, append_assoc.
Qed.

Lemma chardata_stop (s : string) :
  starts_tag s -> chardata false None s = Return (EmptyString, s).
Proof. intros [->|[rest ->]]; reflexivity. Qed.

Lemma write_all_starts_tag (ts : list token) :
  match ts with t :: _ => is_chars t = false | [] => True end ->
  starts_tag (write_all ts).
Proof.
  destruct ts as [|[n attrs|n|s] ts]; simpl; [by left | | | done];
    intros _; right; flatten; eauto.
Qed.

Lemma write_length (t : token) :
  token_ok t = true -> 1 <= String.length (write t).
Proof.
  destruct t as [n attrs|n|[|c s]]; simpl; try done; intros _.
  - flatten. simpl. lia.
  - flatten. simpl. lia.
  - destruct (esc_char_head c (esc s)) as (d & tl & -> & _). simpl. lia.
Qed.

Lemma write_all_length (ts : list token) :
  tokens_ok ts = true -> length ts <= String.length (write_all ts).
Proof.
  induction ts as [|t ts IH]; simpl; [done|].
  rewrite !andb_true_iff. intros [[Ht _] Hts].
  rewrite length_append. pose proof (write_length t Ht). specialize (IH Hts).
  lia.
Qed.

Lemma start_tag_write (n : string) (attrs : list (string * string))
    (rest : string) :
  is_name n = true -> attrs_ok attrs = true ->
  start_tag (n ++ write_attrs attrs ++ String ">" rest)
  = Return (n, attrs, false, rest).
Proof.
  intros Hn Hattrs. unfold start_tag.
  destruct (is_name_inv n Hn) as (c & tl & Hneq & Hc & Hall).
  assert (Hspan : span name_char (n ++ write_attrs attrs ++ String ">" rest)
                  = (n, write_attrs attrs ++ String ">" rest)).
  { destruct attrs as [|kv attrs]; cbn [write_attrs]; flatten.
    - by apply span_app.
    - unfold write_attr. flatten. by apply span_app. }
  rewrite Hspan. cbn [fst snd]. rewrite (is_name_nonempty n Hn).
  rewrite attributes_write; [|  |done..].
  - unbind. cbn [fst snd]. by rewrite uncons_same.
  - rewrite !length_append. pose proof (write_attrs_length attrs). lia.
Qed.

Lemma end_tag_write (n rest : string) :
  is_name n = true -> end_tag (n ++ String ">" rest) = Return (n, rest).
Proof.
  intros Hn. unfold end_tag.
  destruct (is_name_inv n Hn) as (c & tl & Hneq & Hc & Hall).
  rewrite span_app by done. cbn [fst snd]. rewrite uncons_same.
  by rewrite (is_name_nonempty n Hn).
Qed.

Lemma name_head (n rest : string) :
  is_name n = true -> uncons "/" (n ++ rest) = None.
Proof.
  intros Hn. destruct (is_name_inv n Hn) as (c & tl & -> & Hc & _).
  flatten. simpl. by rewrite (ncname_char_not c "/").
Qed.

(** The text of well-formed tokens is cut into the same tokens. *)
Lemma tokens_write (ts : list token) :
  forall fuel : nat,
    length ts < fuel -> tokens_ok ts = true ->
    tokens fuel (write_all ts) = Return ts.
Proof.
  induction ts as [|t ts IH]; intros fuel Hfuel Hok.
  - destruct fuel; [simpl in Hfuel; lia | done].
  - destruct fuel as [|fuel]; [simpl in Hfuel; lia|].
    simpl in Hok, Hfuel. apply andb_true_iff in Hok as [Hok Hts].
    apply andb_true_iff in Hok as [Ht Hadj].
    specialize (IH fuel ltac:(lia) Hts).
    destruct t as [n attrs|n|s]; cbn [write_all write].
    + simpl in Ht. apply andb_true_iff in Ht as [Hn Hattrs].
      flatten. cbn [tokens]. rewrite uncons_same, name_head by done.
      rewrite start_tag_write by done. unbind. by rewrite IH.
    + simpl in Ht. flatten. cbn [tokens]. rewrite !uncons_same.
      rewrite end_tag_write by done. unbind. cbn [fst snd]. by rewrite IH.
    + simpl in Ht. apply andb_true_iff in Ht as [Hne Hs].
      destruct s as [|c s]; [done|]. cbn [esc]. flatten.
      destruct (esc_char_head c (esc s ++ write_all ts))
        as (d & tl & Heq & Hd).
      assert (Hdata : chardata false None (esc_char c ++ esc s ++ write_all ts)
                      = Return (String c s, write_all ts)).
      { rewrite <- append_assoc. apply (chardata_esc false (String c s));
          [done|]. apply chardata_stop, write_all_starts_tag.
        destruct ts as [|t' ts]; [done|]. simpl in Hadj.
        by destruct (is_chars t'). }
      rewrite Heq in *. cbn [tokens uncons]. rewrite Hd, Hdata.
      unbind. cbn [fst snd]. by rewrite IH.
Qed.

(** *** The tokens of a serialisable tree are well formed *)

Lemma name_start_ncname (c : ascii) :
  name_start c = true -> ncname_char c = true.
Proof. unfold ncname_char. by intros ->. Qed.

Lemma is_ncname_is_name (n : string) : is_ncname n = true -> is_name n = true.
Proof.
  destruct n as [|c n]; [done|]. unfold is_name. simpl.
  rewrite !andb_true_iff. intros [Hc Hn]. auto using name_start_ncname.
Qed.

Lemma attr_ok_attrs_ok (attrs : list (string * string)) :
  forallb attr_ok attrs = true -> attrs_ok attrs = true.
Proof.
  unfold attrs_ok. induction attrs as [|kv attrs IH]; simpl; [done|].
  unfold attr_ok at 1. rewrite !andb_true_iff.
  intros [[[Hk _] Hv] Hrest]. auto using is_ncname_is_name.
Qed.

Lemma chars_ok (x : option string) (rest : list token) :
  text_ok x = true -> tokens_ok rest = true -> opens rest ->
  tokens_ok (chars x ++ rest) = true.
Proof.
  intros Hx Hrest Hopen. destruct x as [[|c s]|]; simpl; try done.
  unfold text_ok in Hx. simpl in Hx. rewrite Hx, Hrest.
  destruct rest as [|t rest]; [done|]. simpl in Hopen. by rewrite Hopen.
Qed.

Lemma events_ok (e : element) :
  serialisable e = true ->
  forall rest, tokens_ok rest = true -> opens rest ->
               tokens_ok (events e ++ rest) = true.
Proof.
  induction e as [q a t cs tl IH] using element_induction.
  intros Hser rest Hrest Hopen. simpl in Hser.
  repeat (apply andb_true_iff in Hser as [Hser ?]).
  assert (Hcs : forall rest', tokens_ok rest' = true -> opens rest' ->
                  tokens_ok (flat_map events cs ++ rest') = true
                  /\ opens (flat_map events cs ++ rest')).
  { clear -IH H. induction IH as [|c cs Hc _ IHcs]; intros rest' Hr Ho.
    - done.
    - simpl in H. apply andb_true_iff in H as [Hc' Hcs'].
      destruct (IHcs Hcs' rest' Hr Ho) as [Hok Hop].
      simpl. rewrite <- app_assoc. split; [by apply Hc|].
      by destruct c. }
  cbn [events tag attrib text children tail]. cbn [app].
  rewrite <- !app_assoc. cbn [app tokens_ok token_ok is_chars].
  rewrite (is_ncname_is_name _ Hser). cbn [andb negb].
  assert (Hattrs : attrs_ok (xmlns q :: a) = true).
  { unfold attrs_ok. cbn [forallb xmlns fst snd].
    fold (attrs_ok a). rewrite (attr_ok_attrs_ok a) by done.
    match goal with H : text_ok (ns q) = true |- _ =>
      unfold text_ok in H; rewrite H end. reflexivity. }
  rewrite Hattrs. cbn [andb].
  apply chars_ok; [done | |].
  - apply Hcs; [|done]. cbn [tokens_ok token_ok is_chars andb negb].
    rewrite (is_ncname_is_name _ Hser). by apply chars_ok.
  - apply Hcs; [|done]. cbn [tokens_ok token_ok is_chars andb negb].
    rewrite (is_ncname_is_name _ Hser). by apply chars_ok.
Qed.

(** *** The tokens of a tree build the tree *)

Lemma ncname_no_colon (c : ascii) :
  ncname_char c = true -> negb (Ascii.eqb c ":") = true.
Proof. intros Hc. by rewrite (ncname_char_not c ":"). Qed.

Lemma span_all (p : ascii -> bool) (n : string) :
  forallb_string p n = true -> span p n = (n, EmptyString).
Proof.
  induction n as [|c n IH]; simpl; [done|].
  rewrite andb_true_iff. intros [-> Hn]. by rewrite (IH Hn).
Qed.

Lemma split_prefix_ncname (n : string) :
  is_ncname n = true -> split_prefix n = Some (None, n).
Proof.
  intros Hn. unfold split_prefix. rewrite span_all.
  - simpl. by rewrite Hn.
  - apply is_ncname_is_name in Hn. unfold is_name in Hn.
    apply andb_true_iff in Hn as [_ Hn].
    revert Hn. apply forallb_string_impl, ncname_no_colon.
Qed.

Lemma declaration_plain (kv : string * string) :
  attr_ok kv = true -> declaration kv = None.
Proof.
  unfold attr_ok, declaration. rewrite !andb_true_iff.
  intros [[Hk Hx] _]. apply negb_true_iff in Hx. rewrite Hx.
  by rewrite split_prefix_ncname.
Qed.

Lemma resolve_attrs_plain (sc attrs : list (string * string)) :
  forallb attr_ok attrs = true -> resolve_attrs sc attrs = Return attrs.
Proof.
  induction attrs as [|[k v] attrs IH]; simpl; [done|].
  rewrite andb_true_iff. intros [Hkv Hrest].
  rewrite (declaration_plain _ Hkv). unfold attr_ok in Hkv. simpl in Hkv.
  apply andb_true_iff in Hkv as [Hk _]. apply andb_true_iff in Hk as [Hk _].
  rewrite (split_prefix_ncname k Hk), (IH Hrest). reflexivity.
Qed.

Lemma open_frame_element (outer : list (string * string)) (q : QName)
    (a : list (string * string)) :
  is_ncname (local q) = true ->
  ns q <> Some EmptyString ->
  forallb attr_ok a = true ->
  NoDup (map fst a) ->
  exists inner,
    open_frame outer (local q) (xmlns q :: a)
    = Return (Frame (local q) q a None [] inner).
Proof.
  intros Hn Hns Ha Hnd. unfold open_frame.
  assert (Hdup : NoDup (map fst (xmlns q :: a))).
  { simpl. apply NoDup_cons. split; [|done].
    intros Hin. apply list_elem_of_In, in_map_iff in Hin as ([k v] & Hk & Hin).
    simpl in Hk. subst k. rewrite forallb_forall in Ha.
    specialize (Ha _ Hin). unfold attr_ok in Ha. cbn [fst snd] in Ha.
    apply andb_true_iff in Ha as [Ha _]. apply andb_true_iff in Ha as [_ Ha].
    vm_compute in Ha. discriminate Ha. }
  rewrite (bool_decide_eq_true_2 _ Hdup). cbn [negb].
  eexists. unfold resolve_tag. rewrite (split_prefix_ncname _ Hn).
  cbn [omap list_omap declaration xmlns fst snd]. simpl String.eqb.
  cbn [app assoc]. simpl String.eqb. cbv beta iota.
  cbn [mbind result_bind Py.bind resolve_attrs declaration fst snd].
  simpl String.eqb. cbv beta iota.
  rewrite (resolve_attrs_plain _ a Ha). cbv beta iota.
  destruct q as [[[|c u]|] l]; [done|reflexivity..].
Qed.

Lemma serialisable_inv q a t cs tl :
  serialisable (Element q a t cs tl) = true ->
  is_ncname (local q) = true /\ ns q <> Some EmptyString
  /\ text_ok (ns q) = true /\ forallb attr_ok a = true
  /\ NoDup (map fst a) /\ text_ok t = true /\ text_ok tl = true
  /\ forallb serialisable cs = true.
Proof.
  simpl. rewrite !andb_true_iff, negb_true_iff, bool_decide_eq_false.
  rewrite bool_decide_eq_true. tauto.
Qed.

Lemma fold_add_child (cs : list element) (fr : frame) :
  fold_left (fun f c => add_child (canon c) f) cs fr
  = Frame (raw_name fr) (frame_tag fr) (frame_attrib fr) (frame_text fr)
          (List.rev (map canon cs) ++ frame_children fr) (scope fr).
Proof.
  revert fr. induction cs as [|c cs IH]; intros fr; simpl.
  - by destruct fr.
  - rewrite IH. simpl. by rewrite <- app_assoc.
Qed.

Lemma build_events (e : element) :
  serialisable e = true ->
  forall stack rest, build stack None (events e ++ rest) = built stack e rest.
Proof.
  induction e as [q a t cs tl IH] using element_induction.
  intros Hser stack rest.
  apply serialisable_inv in Hser
    as (Hname & Hns & _ & Hattrs & Hnd & _ & _ & H).
  assert (Hcs : forall fr outer rest',
             build (fr :: outer) None (flat_map events cs ++ rest')
             = build (fold_left (fun f c => add_child (canon c) f) cs fr
                      :: outer) None rest').
  { clear -IH H. induction IH as [|c cs Hc _ IHcs]; intros fr outer rest'.
    - done.
    - simpl in H. apply andb_true_iff in H as [Hc' Hcs'].
      simpl. rewrite <- app_assoc, (Hc Hc'). simpl. by apply IHcs. }
  destruct (open_frame_element (scope_of stack) q a) as [inner Hopen];
    [done..|].
  cbn [events tag attrib text children tail]. cbn [app].
  rewrite <- !app_assoc. cbn [app build]. rewrite Hopen.
  cbn [mbind result_bind Py.bind].
  set (fr1 := Frame (local q) q a (nonempty t) [] inner).
  assert (Htext : forall rest',
             build (Frame (local q) q a None [] inner :: stack) None
                   (chars t ++ rest')
             = build (fr1 :: stack) None rest').
  { intros rest'. destruct t as [[|c s]|]; reflexivity. }
  rewrite Htext, Hcs, fold_add_child. cbn [build raw_name].
  rewrite String.eqb_refl. cbn [negb].
  unfold close, fr1. cbn [frame_tag frame_attrib frame_text frame_children].
  rewrite app_nil_r, rev_involutive.
  destruct stack as [|parent outer]; [reflexivity|].
  unfold built. destruct tl as [[|c s]|]; reflexivity.
Qed.

(** The law: a tree this serialiser can write is read back as it was. *)
Lemma parse_serialize (e : element) :
  serialisable e = true -> tail e = None ->
  parse (serialize e) = Return (canon e).
Proof.
  intros Hser Htail. unfold parse, serialize.
  assert (Hok : tokens_ok (events e) = true).
  { rewrite <- (app_nil_r (events e)). by apply events_ok. }
  rewrite tokens_write; [|pose proof (write_all_length _ Hok); lia | done].
  cbn [mbind result_bind Py.bind].
  rewrite <- (app_nil_r (events e)), build_events by done.
  unfold built. rewrite Htail. simpl.
  destruct e; simpl in *. by subst.
Qed.

End ReadBack.


Lemma reference_reads_back : reads_back Reference.lxml.
Proof.
  intros tree encoding data Hser Htail. unfold tostring. simpl.
  unfold Reference.write_tree.
  destruct (Reference.serialises encoding); [|discriminate].
  intros [= <-]. by apply ReadBack.parse_serialize.
Qed.

(** ** The envelope, written and read back *)

Lemma exchange_header_serialisable (flag : bool) :
  Reference.serialisable (_exchange_header flag) = true
  /\ canon (_exchange_header flag) = _exchange_header flag
  /\ tag (_exchange_header flag) = {| ns := Some SOAP_NS; local := "Header" |}.
Proof. destruct flag; repeat split; vm_compute; reflexivity. Qed.

(** For every lxml that reads back what it has written, the envelope
    written under an encoding and parsed again has the header and the
    body it was built from. *)
Lemma envelope_read_back {L : Lxml} (exchange_xml : element)
    (user_availability_req : bool) (encoding : string) (data : bytes) :
  reads_back L ->
  Reference.serialisable exchange_xml = true ->
  tostring (_wrap_soap_xml_request exchange_xml user_availability_req)
           encoding false = Return data ->
  XML data
  = Return (Element (soap "Envelope") [] None
              [_exchange_header user_availability_req;
               Element (soap "Body") [] None [canon exchange_xml] None]
              None).
Proof.
  intros Hlaw Hbody Hdata.
  destruct (exchange_header_serialisable user_availability_req)
    as (Hser & Hcanon & Htag).
  rewrite (Hlaw (_wrap_soap_xml_request exchange_xml user_availability_req)
                encoding data); [| |reflexivity|done].
  2: { rewrite wrap_children.
       cbn [Reference.serialisable forallb tag attrib text children tail].
       rewrite Hser, Hbody. reflexivity. }
  rewrite wrap_children. cbn [canon map tag attrib text children tail].
  rewrite Hcanon. reflexivity.
Qed.

Lemma exchange_header_outline (flag : bool) :
  outline 0 (_exchange_header flag)
  = (if flag then availability_outline else version_outline)
  /\ Forall (fun e => tail e = None) (iter (_exchange_header flag)).
Proof.
  destruct flag; (split; [reflexivity|]); repeat constructor.
Qed.

(** C7: the envelope of [_wrap_soap_xml_request], serialised under an
    encoding the serialiser has and parsed again, is an [Envelope] with
    exactly two children, one [Header] followed by one [Body] that holds
    the body given.  The header read back is the header built, element
    by element: with [user_availability_req] false the version marker
    and nothing else, with it true the version marker and the time zone
    definition with its two periods, its group of two recurring
    transitions and its two transitions, every tag, attribute and text
    as written and no text between the elements. *)
Theorem envelope_round_trip (exchange_xml : element)
    (user_availability_req : bool) (encoding : string) (data : bytes) :
  Reference.serialisable exchange_xml = true ->
  @tostring Reference.lxml
            (_wrap_soap_xml_request exchange_xml user_availability_req)
            encoding false = Return data ->
  exists header body,
    @XML Reference.lxml data
    = Return (Element (soap "Envelope") [] None [header; body] None)
    /\ header = _exchange_header user_availability_req
    /\ body = Element (soap "Body") [] None [canon exchange_xml] None
    /\ outline 0 header
       = (if user_availability_req then availability_outline
          else version_outline)
    /\ Forall (fun e => tail e = None) (iter header).
Proof.
  intros Hbody Hdata.
  exists (_exchange_header user_availability_req),
         (Element (soap "Body") [] None [canon exchange_xml] None).
  split; [|split; [reflexivity | split; [reflexivity|]]].
  - by apply (envelope_read_back _ _ encoding _ reference_reads_back).
  - apply exchange_header_outline.
Qed.

Lemma envelope_round_trip_witness :
  exists header body,
    @XML Reference.lxml
         (Reference.serialize (_wrap_soap_xml_request sample_body true))
    = Return (Element (soap "Envelope") [] None [header; body] None)
    /\ outline 0 header = availability_outline
    /\ body = Element (soap "Body") [] None [sample_body] None.
Proof.
  destruct (envelope_round_trip sample_body true "utf-8"
              (Reference.serialize (_wrap_soap_xml_request sample_body true)))
    as (header & body & Hdoc & _ & Hbody & Houtline & _).
  - reflexivity.
  - reflexivity.
  - exists header, body. split; [exact Hdoc|]. split; [exact Houtline|].
    exact Hbody.
Defined.

Lemma envelope_examples :
  Reference.serialize (_wrap_soap_xml_request
                         (Element {| ns := None; local := "x" |} [] None [] None)
                         false)
  = "<Envelope xmlns=" ++ String Reference.quote (SOAP_NS ++
    String Reference.quote ("><Header xmlns=" ++ String Reference.quote (SOAP_NS ++
    String Reference.quote ("><RequestServerVersion xmlns=" ++
    String Reference.quote (TYPE_NS ++ String Reference.quote (" Version=" ++
    String Reference.quote ("Exchange2010" ++ String Reference.quote (
    "></RequestServerVersion></Header><Body xmlns=" ++
    String Reference.quote (SOAP_NS ++ String Reference.quote ("><x xmlns=" ++
    String Reference.quote (String Reference.quote
    "></x></Body></Envelope>"))))))))))).
Proof. reflexivity. Qed.

(** * Further properties *)

(** ** What [_xpath_to_dict] stores *)

Lemma cast_node_kind (item : gmap string string) (n : xpath_item)
    (v : value) :
  cast_node item n = Return v -> has_kind (item !! "cast") v.
Proof.
  intros H. destruct (cast_node_Return_element _ _ _ H) as [e ->].
  rename e into n. rewrite cast_node_element in H.
  unfold has_kind. repeat case_decide.
  - apply fmap_Return in H as (d & Hd & ->). exists d. split; [done|].
    pose proof (parse_date_strptime (text n)) as Hp. rewrite Hd in Hp.
    by destruct Hp as (naive & _ & ->).
  - apply fmap_Return in H as (d & _ & ->). eauto.
  - apply fmap_Return in H as (z & _ & ->). eauto.
  - apply bind_Return in H as (lowered & _ & H).
    case_decide; injection H as <-; eauto.
  - injection H as <-. destruct (text n); simpl; eauto.
Qed.

Lemma cast_node_not_list (item : gmap string string) (n : xpath_item)
    (v : value) :
  cast_node item n = Return v -> is_list v = false.
Proof.
  intros H. apply cast_node_kind in H. unfold has_kind in H.
  repeat case_decide;
    [destruct H as (d & -> & _) | destruct H as (d & ->)
     | destruct H as (z & ->) | destruct H as (b & ->)
     | destruct H as [-> | (s & ->)]]; reflexivity.
Qed.

Lemma casts_functional (item : gmap string string) (nodes : list xpath_item)
    (vals vals' : list value) :
  Forall2 (fun n v => cast_node item n = Return v) nodes vals ->
  Forall2 (fun n v => cast_node item n = Return v) nodes vals' ->
  vals = vals'.
Proof.
  intros H. revert vals'. induction H as [|n v nodes vals Hv _ IH];
    intros vals' H'; inversion H'; subst; [done|].
  f_equal; [congruence | by apply IH].
Qed.

Section Stored.

Context {L : Lxml}.

Variables (el : element) (ns : nsmap).

(** Where a value of the result comes from: it was there before, or it
    is what [store] made of the values of a field that selected nodes. *)
Lemma for_keys_origin pm (r0 r : gmap string value) :
  for_keys el ns pm r0 = Return r ->
  forall key v, r !! key = Some v ->
    r0 !! key = Some v
    \/ exists item nodes vals,
         In (key, item) pm /\ selects el ns item nodes
         /\ Forall2 (fun n v => cast_node item n = Return v) nodes vals
         /\ vals <> [] /\ collapse vals = Some v.
Proof.
  revert r0. induction pm as [|[key0 item0] pm IH]; intros r0; simpl.
  - intros [= <-]. auto.
  - intros H key v Hv. apply bind_Return in H as (r1 & Hkey & H).
    apply for_key_Return in Hkey as (nodes & vals & Hsel & Hall & Hr1).
    destruct (IH r1 H key v Hv) as [Hin|(item & nodes' & vals' & Hmem & Hrest)].
    + destruct vals as [|v0 vals]; [subst r1; auto|].
      destruct (decide (key0 = key)) as [->|Hne].
      * right. exists item0, nodes, (v0 :: vals).
        rewrite Hr1, store_lookup in Hin by done. auto 10.
      * left. by rewrite Hr1, store_lookup_ne in Hin.
    + right. exists item, nodes', vals'. auto.
Qed.

Lemma keys_functional (pm : list (string * gmap string string)) key item item' :
  NoDup (map fst pm) -> In (key, item) pm -> In (key, item') pm ->
  item = item'.
Proof.
  induction pm as [|[k it] pm IH]; simpl; [done|].
  intros Hnd. apply NoDup_cons in Hnd as [Hk Hnd].
  intros [[= -> ->]|H1] [[= ->]|H2]; try done.
  - destruct Hk. apply list_elem_of_In, in_map_iff. by exists (key, item').
  - destruct Hk. subst. apply list_elem_of_In, in_map_iff.
    by exists (key, item).
  - by apply IH.
Qed.

(** The shape of a stored value tells how many nodes its field selected:
    a list has one element per node, at least two of them, and holds no
    list; any other value stands for exactly one node. *)
Theorem stored_value_counts_nodes
    (pm : list (string * gmap string string)) (r : gmap string value)
    (key : string) (v : value) :
  _xpath_to_dict el pm ns = Return r ->
  r !! key = Some v ->
  exists item nodes,
    In (key, item) pm /\ selects el ns item nodes
    /\ length (scalars v) = length nodes
    /\ (is_list v = true <-> 2 <= length nodes)
    /\ Forall (fun x => is_list x = false) (scalars v).
Proof.
  intros Hr Hv. destruct (for_keys_origin pm ∅ r Hr key v Hv)
    as [Hin|(item & nodes & vals & Hmem & Hsel & Hall & Hne & Hc)];
    [by rewrite lookup_empty in Hin|].
  exists item, nodes. split; [done|]. split; [done|].
  pose proof (Forall2_length _ _ _ Hall) as Hlen.
  assert (Hflat : Forall (fun x => is_list x = false) vals).
  { clear -Hall. induction Hall; constructor; [|done].
    by eapply cast_node_not_list. }
  destruct vals as [|v0 [|v1 vals]]; [done| |]; simpl in Hc;
    injection Hc as <-.
  - inversion Hflat as [|? ? Hv0 _]; subst.
    destruct v0; try discriminate Hv0; simpl in *;
      (split; [lia|]; split; [split; [done | lia]|]; by constructor).
  - simpl in *. split; [lia|]. split; [split; [lia | done]|]. done.
Qed.

(** The values stored for a field are of the kind of its cast: UTC
    timestamps under [datetime], dates under [date_only_naive], integers
    under [int], booleans under [bool], and text or [None] under any
    other cast or without one. *)
Theorem stored_value_kind (pm : list (string * gmap string string))
    (r : gmap string value) (key : string) (item : gmap string string)
    (v : value) :
  NoDup (map fst pm) ->
  _xpath_to_dict el pm ns = Return r ->
  In (key, item) pm ->
  r !! key = Some v ->
  Forall (has_kind (item !! "cast")) (scalars v).
Proof.
  intros Hnd Hr Hmem Hv. destruct (for_keys_origin pm ∅ r Hr key v Hv)
    as [Hin|(item' & nodes & vals & Hmem' & Hsel & Hall & Hne & Hc)];
    [by rewrite lookup_empty in Hin|].
  rewrite <- (keys_functional pm key item item' Hnd Hmem Hmem') in Hall.
  assert (Hkinds : Forall (has_kind (item !! "cast")) vals).
  { clear -Hall. induction Hall; constructor; [|done].
    by eapply cast_node_kind. }
  destruct vals as [|v0 [|v1 vals]]; [done| |]; simpl in Hc;
    injection Hc as <-; [|done].
  inversion Hkinds as [|? ? Hk _]; subst.
  assert (Hv0 : is_list v0 = false).
  { inversion Hall; subst. by eapply cast_node_not_list. }
  destruct v0; try discriminate Hv0; simpl; by constructor.
Qed.

(** The value of a field depends on that field alone: two property maps
    that have the same item under a key give that key the same value,
    whatever else they hold. *)
Theorem fields_are_independent
    (pm pm' : list (string * gmap string string))
    (r r' : gmap string value) (key : string) (item : gmap string string) :
  NoDup (map fst pm) -> NoDup (map fst pm') ->
  _xpath_to_dict el pm ns = Return r ->
  _xpath_to_dict el pm' ns = Return r' ->
  In (key, item) pm -> In (key, item) pm' ->
  r !! key = r' !! key.
Proof.
  intros Hnd Hnd' Hr Hr' Hmem Hmem'.
  destruct (for_keys_lookup el ns pm ∅ r Hnd Hr) as [_ Hin].
  destruct (for_keys_lookup el ns pm' ∅ r' Hnd' Hr') as [_ Hin'].
  destruct (Hin key item Hmem) as (nodes & vals & Hsel & Hall & ->).
  destruct (Hin' key item Hmem') as (nodes' & vals' & Hsel' & Hall' & ->).
  rewrite (selects_functional _ _ _ _ _ Hsel' Hsel) in Hall'.
  by rewrite (casts_functional _ _ _ _ Hall Hall').
Qed.

(** The order in which the property map is gone through does not change
    the result. *)
Theorem order_is_irrelevant (pm pm' : list (string * gmap string string))
    (r : gmap string value) :
  Permutation pm pm' ->
  NoDup (map fst pm) ->
  _xpath_to_dict el pm ns = Return r ->
  _xpath_to_dict el pm' ns = Return r.
Proof.
  intros Hperm Hnd Hr.
  assert (Hnd' : NoDup (map fst pm')).
  { by rewrite <- (Permutation_map fst Hperm). }
  assert (Hall : all_convert el ns pm').
  { apply xpath_to_dict_Return in Hr. unfold all_convert in *.
    by rewrite <- Hperm. }
  destruct (for_keys_total el ns pm' ∅ Hall) as [r' Hr'].
  unfold _xpath_to_dict. rewrite Hr'. f_equal. apply map_eq. intros key.
  destruct (for_keys_lookup el ns pm ∅ r Hnd Hr) as [Hout _].
  destruct (for_keys_lookup el ns pm' ∅ r' Hnd' Hr') as [Hout' _].
  destruct (decide (key ∈ map fst pm)) as [Hin|Hnin];
    rewrite list_elem_of_In in *.
  - apply in_map_iff in Hin as ([k item] & Hk & Hmem). simpl in Hk. subst k.
    assert (Hmem' : In (key, item) pm').
    { apply list_elem_of_In. rewrite <- Hperm. by apply list_elem_of_In. }
    destruct (for_keys_lookup el ns pm ∅ r Hnd Hr) as [_ Hin].
    destruct (for_keys_lookup el ns pm' ∅ r' Hnd' Hr') as [_ Hin'].
    destruct (Hin key item Hmem) as (nodes & vals & Hsel & Hvals & ->).
    destruct (Hin' key item Hmem') as (nodes' & vals' & Hsel' & Hvals' & ->).
    rewrite (selects_functional _ _ _ _ _ Hsel' Hsel) in Hvals'.
    by rewrite (casts_functional _ _ _ _ Hvals Hvals').
  - rewrite Hout, Hout'; [done | | done].
    intros Hin'. apply Hnin. apply list_elem_of_In.
    rewrite (Permutation_map fst Hperm). by apply list_elem_of_In.
Qed.

(** An item without an ["xpath"] entry makes the call raise, wherever the
    item stands in the property map; [KeyError] when it comes first. *)
Theorem missing_xpath_raises (pm : list (string * gmap string string))
    (key : string) (item : gmap string string) :
  In (key, item) pm ->
  item !! "xpath" = None ->
  (exists e, _xpath_to_dict el pm ns = Raise e)
  /\ (forall rest, pm = (key, item) :: rest ->
        _xpath_to_dict el pm ns = Raise (KeyError "xpath")).
Proof.
  intros Hmem Hnone. split.
  - destruct (_xpath_to_dict el pm ns) as [r|e] eqn:Hcall; [|eauto].
    apply xpath_to_dict_Return in Hcall. unfold all_convert in Hcall.
    rewrite List.Forall_forall in Hcall.
    destruct (Hcall _ Hmem) as (nodes & (path & found & Hpath & _) & _).
    simpl in Hpath. congruence.
  - intros rest ->. unfold _xpath_to_dict. simpl. unfold for_key, getitem.
    by rewrite Hnone.
Qed.

Lemma for_nodes_texts (item : gmap string string) (nodes : list element)
    (acc : list value) :
  ~ converting (item !! "cast") ->
  for_nodes item (map XElement nodes) acc
  = Return (acc ++ map (fun n => of_text (text n)) nodes)%list.
Proof.
  intros Hcast. revert acc.
  induction nodes as [|n nodes IH]; intros acc; simpl.
  - by rewrite app_nil_r.
  - rewrite cast_node_element. unfold converting in Hcast.
    repeat (case_decide; [tauto|]). unbind. rewrite IH.
    by rewrite <- app_assoc.
Qed.

Lemma for_nodes_non_element (item : gmap string string)
    (nodes : list xpath_item) (n : xpath_item) (acc : list value) :
  ~ converting (item !! "cast") ->
  In n nodes -> (forall e, n <> XElement e) ->
  exists msg, for_nodes item nodes acc = Raise (AttributeError msg).
Proof.
  intros Hcast Hin Hn. revert acc.
  induction nodes as [|m nodes IH]; intros acc; [destruct Hin|]. simpl.
  destruct (cast_node item m) as [v|e] eqn:Hm.
  - destruct (cast_node_Return_element _ _ _ Hm) as [e ->].
    destruct Hin as [<-|Hin]; [by destruct (Hn e)|]. unbind.
    by apply IH.
  - unbind. destruct m as [e'| | |];
      try (rewrite cast_node_non_element in Hm by discriminate;
           injection Hm as <-; eauto).
    rewrite cast_node_element in Hm. unfold converting in Hcast.
    repeat (case_decide; [tauto|]). discriminate Hm.
Qed.

(** Under a cast that is none of [datetime], [date_only_naive], [int]
    and [bool] (a misspelt one included), or without a cast, a field
    whose path selects elements cannot fail: the texts of the elements
    are stored as they are, [None] for an element without text.  A field
    whose path selects something that is not an element (a text or an
    attribute value, as with [text()] or [@Id]) raises the
    [AttributeError] of the read of [.text]. *)
Theorem unknown_cast_keeps_text (key : string) (item : gmap string string)
    (r : gmap string value) :
  ~ converting (item !! "cast") ->
  (forall nodes : list element,
     selects el ns item (map XElement nodes) ->
     for_key el ns key item r
     = Return (match nodes with
               | [] => r
               | _ => store r key (map (fun n => of_text (text n)) nodes)
               end))
  /\ (forall (nodes : list xpath_item) (n : xpath_item),
        selects el ns item nodes ->
        In n nodes -> (forall e, n <> XElement e) ->
        exists msg, for_key el ns key item r = Raise (AttributeError msg)).
Proof.
  intros Hcast. split.
  - intros nodes (path & found & Hpath & Hfound & Hloop).
    unfold for_key, getitem. rewrite Hpath. unbind. rewrite Hfound.
    unfold loop_nodes in Hloop. destruct (truthy found) eqn:Htruthy.
    + destruct (iterate found) as [sequence|] eqn:Hseq; [|discriminate].
      injection Hloop as ->. rewrite for_nodes_texts by done.
      pose proof (iterate_nonempty _ _ Htruthy Hseq) as Hne.
      destruct nodes; [done|]. reflexivity.
    + injection Hloop as Hnil. by destruct nodes.
  - intros nodes n (path & found & Hpath & Hfound & Hloop) Hin Hn.
    unfold for_key, getitem. rewrite Hpath. unbind. rewrite Hfound.
    unfold loop_nodes in Hloop. destruct (truthy found).
    + destruct (iterate found) as [sequence|]; [|discriminate].
      injection Hloop as ->.
      destruct (for_nodes_non_element item nodes n [] Hcast Hin Hn)
        as [msg ->].
      eauto.
    + injection Hloop as <-. destruct Hin.
Qed.

End Stored.

(** What each cast makes of a node without text, such as [<t:Flag/>]:
    the three conversions raise [TypeError], [bool] raises
    [AttributeError], and any other cast gives [None]. *)
Theorem cast_of_empty_element (item : gmap string string) (n : element) :
  text n = None ->
  (item !! "cast" = Some "datetime" \/ item !! "cast" = Some "date_only_naive"
   \/ item !! "cast" = Some "int" ->
   exists msg, cast_node item (XElement n) = Raise (TypeError msg))
  /\ (item !! "cast" = Some "bool" ->
      exists msg, cast_node item (XElement n) = Raise (AttributeError msg))
  /\ (~ converting (item !! "cast") ->
      cast_node item (XElement n) = Return VNone).
Proof.
  intros Hn. rewrite cast_node_element. unfold converting. rewrite Hn.
  split; [|split].
  - intros [H|[H|H]]; rewrite H; repeat case_decide; try congruence;
      eexists; reflexivity.
  - intros H. rewrite H. repeat case_decide; try congruence.
    eexists; reflexivity.
  - intros H. repeat (case_decide; [tauto|]). done.
Qed.

Lemma stored_value_counts_nodes_witness :
  exists item nodes,
    In ("name", item) [("name", name_item)]
    /\ @selects Reference.lxml sample_item SOAP_NAMESPACES item nodes
    /\ length (scalars (VList [VStr "Alice"; VStr "Bob"])) = length nodes
    /\ (is_list (VList [VStr "Alice"; VStr "Bob"]) = true
        <-> 2 <= length nodes)
    /\ Forall (fun x => is_list x = false)
              (scalars (VList [VStr "Alice"; VStr "Bob"])).
Proof.
  apply (@stored_value_counts_nodes Reference.lxml sample_item
           SOAP_NAMESPACES [("name", name_item)]
           {[ "name" := VList [VStr "Alice"; VStr "Bob"] ]}).
  - reflexivity.
  - reflexivity.
Defined.

Lemma stored_value_kind_witness :
  Forall (has_kind (Some "int")) [VInt 12; VInt (-7)].
Proof.
  apply (@stored_value_kind Reference.lxml
           (T "Item" [Child (T "Count" [Text "12"]);
                      Child (T "Count" [Text " -7 "])])
           SOAP_NAMESPACES [("count", int_item)]
           {[ "count" := VList [VInt 12; VInt (-7)] ]} "count" int_item
           (VList [VInt 12; VInt (-7)])).
  - apply (bool_decide_unpack _). vm_compute. exact I.
  - reflexivity.
  - left. reflexivity.
  - reflexivity.
Defined.

Lemma fields_are_independent_witness :
  ({[ "name" := VList [VStr "Alice"; VStr "Bob"] ]} : gmap string value)
    !! "name"
  = ({[ "count" := VStr "abc";
        "name" := VList [VStr "Alice"; VStr "Bob"] ]} : gmap string value)
      !! "name".
Proof.
  apply (@fields_are_independent Reference.lxml sample_item SOAP_NAMESPACES
           [("name", name_item)]
           [("count", {[ "xpath" := "t:Count" ]}); ("name", name_item)]
           _ _ "name" name_item).
  - apply (bool_decide_unpack _). vm_compute. exact I.
  - apply (bool_decide_unpack _). vm_compute. exact I.
  - reflexivity.
  - reflexivity.
  - left. reflexivity.
  - right. left. reflexivity.
Defined.

Lemma order_is_irrelevant_witness :
  @_xpath_to_dict Reference.lxml sample_item
     [("count", {[ "xpath" := "t:Count" ]}); ("name", name_item)]
     SOAP_NAMESPACES
  = Return {[ "name" := VList [VStr "Alice"; VStr "Bob"];
              "count" := VStr "abc" ]}.
Proof.
  apply (@order_is_irrelevant Reference.lxml sample_item SOAP_NAMESPACES
           [("name", name_item); ("count", {[ "xpath" := "t:Count" ]})]).
  - apply perm_swap.
  - apply (bool_decide_unpack _). vm_compute. exact I.
  - reflexivity.
Defined.

Lemma missing_xpath_raises_witness :
  exists e, @_xpath_to_dict Reference.lxml sample_item
              [("name", name_item); ("count", {[ "cast" := "int" ]})]
              SOAP_NAMESPACES
            = Raise e.
Proof.
  apply (@missing_xpath_raises Reference.lxml sample_item SOAP_NAMESPACES
           [("name", name_item); ("count", {[ "cast" := "int" ]})]
           "count" {[ "cast" := "int" ]}).
  - right. left. reflexivity.
  - reflexivity.
Defined.

Lemma unknown_cast_keeps_text_witness :
  @for_key Reference.lxml sample_item SOAP_NAMESPACES "flag"
     {[ "xpath" := "t:Flag"; "cast" := "boolean" ]} ∅
  = Return (store ∅ "flag" [VNone])
  /\ exists msg,
       @for_key Reference.lxml sample_item SOAP_NAMESPACES "name"
          {[ "xpath" := "t:Name/text()" ]} ∅
       = Raise (AttributeError msg).
Proof.
  split.
  - destruct (@unknown_cast_keeps_text Reference.lxml sample_item
                SOAP_NAMESPACES "flag"
                {[ "xpath" := "t:Flag"; "cast" := "boolean" ]} ∅)
      as [H _].
    + intros [H|[H|[H|H]]]; vm_compute in H; discriminate H.
    + apply (H [T "Flag" []]).
      exists "t:Flag". eexists. repeat split; reflexivity.
  - destruct (@unknown_cast_keeps_text Reference.lxml sample_item
                SOAP_NAMESPACES "name" {[ "xpath" := "t:Name/text()" ]} ∅)
      as [_ H].
    + intros [H|[H|[H|H]]]; vm_compute in H; discriminate H.
    + apply (H [XSmartString "Alice"; XSmartString "Bob"]
               (XSmartString "Alice")).
      * exists "t:Name/text()". eexists. repeat split; reflexivity.
      * left. reflexivity.
      * discriminate.
Defined.

Lemma cast_of_empty_element_witness :
  exists msg,
    cast_node bool_item (XElement (T "Flag" [])) = Raise (AttributeError msg).
Proof.
  apply (cast_of_empty_element bool_item (T "Flag" [])); reflexivity.
Defined.

(** ** What an extraction call raises *)

Lemma cast_node_Raise (item : gmap string string) (n : element) (e : exn) :
  cast_node item (XElement n) = Raise e ->
  converting (item !! "cast")
  /\ match text n with
     | Some _ => item !! "cast" <> Some "bool" /\ exists why, e = ValueError why
     | None =>
         if decide (item !! "cast" = Some "bool")
         then exists msg, e = AttributeError msg
         else exists msg, e = TypeError msg
     end.
Proof.
  rewrite cast_node_element. unfold converting. intros H.
  destruct (decide (item !! "cast" = Some "datetime")) as [Hc|Hn1].
  { rewrite Hc. split; [tauto|]. unfold _parse_date in H. unbind.
    destruct (text n) as [s|].
    - split; [congruence|].
      destruct (strptime (Some s) EXCHANGE_DATE_FORMAT) eqn:Hs;
        [discriminate|]. injection H as <-. by eapply strptime_raises.
    - case_decide; [congruence|]. simpl in H. injection H as <-. eauto. }
  destruct (decide (item !! "cast" = Some "date_only_naive")) as [Hc|Hn2].
  { rewrite Hc. split; [tauto|].
    unfold _parse_date_only_naive, Builtins.slice_to in H. unbind.
    destruct (text n) as [s|].
    - split; [congruence|].
      destruct (strptime _ _) eqn:Hs; [discriminate|].
      injection H as <-. by eapply strptime_raises.
    - case_decide; [congruence|]. injection H as <-. eauto. }
  destruct (decide (item !! "cast" = Some "int")) as [Hc|Hn3].
  { rewrite Hc. split; [tauto|]. unfold Builtins.int in H. unbind.
    destruct (text n) as [s|].
    - split; [congruence|].
      destruct (Builtins.int_literal _); [discriminate|].
      injection H as <-. eauto.
    - case_decide; [congruence|]. injection H as <-. eauto. }
  destruct (decide (item !! "cast" = Some "bool")) as [Hc|Hn4];
    [|discriminate H].
  split; [tauto|]. unfold Builtins.lower in H. unbind.
  destruct (text n) as [s|].
  - case_decide; discriminate H.
  - injection H as <-. eauto.
Qed.

(** Every exception that leaves [_xpath_to_dict] is the [KeyError] of an
    item without ["xpath"]; what the evaluation of a field's path raised;
    the [TypeError] of the loop over a result that is a number other
    than zero or [True]; the [AttributeError] of the read of [.text] on
    a selected object that is not an element, whatever the cast; or
    what a conversion of a selected element raised under one of the four
    casts: a [ValueError] for an element that has text (never under
    [bool]), and for an element without text an [AttributeError] under
    [bool] and a [TypeError] under the other three. *)
Theorem extraction_raises_only {L : Lxml} (el : element)
    (pm : list (string * gmap string string)) (ns : nsmap) (e : exn) :
  _xpath_to_dict el pm ns = Raise e ->
  exists key item, In (key, item) pm /\
    ((item !! "xpath" = None /\ e = KeyError "xpath")
     \/ (exists path, item !! "xpath" = Some path
                      /\ xpath el path ns = Raise e)
     \/ (exists path found,
           item !! "xpath" = Some path
           /\ xpath el path ns = Return found
           /\ (found = XFloat false \/ found = XBool true)
           /\ e = TypeError ("'" ++ result_type found
                             ++ "' object is not iterable"))
     \/ (exists nodes n,
           selects el ns item nodes /\ In n nodes
           /\ match n with
              | XElement node =>
                  converting (item !! "cast")
                  /\ match text node with
                     | Some _ => item !! "cast" <> Some "bool"
                                 /\ exists why, e = ValueError why
                     | None =>
                         if decide (item !! "cast" = Some "bool")
                         then exists msg, e = AttributeError msg
                         else exists msg, e = TypeError msg
                     end
              | _ =>
                  e = AttributeError
                        ("'" ++ type_name n
                         ++ "' object has no attribute 'text'")
              end)).
Proof.
  intros H. apply for_keys_Raise in H as (key & item & Hmem & H).
  exists key, item. split; [done|].
  destruct H as [H|[H|[H|(nodes & n & Hsel & Hn & Hcast)]]]; [auto | auto | |].
  - destruct H as (path & found & Hpath & Hfound & Htruthy & Hiter).
    right; right; left. exists path, found. split; [done|]. split; [done|].
    destruct found as [items|[|]|[|]|s]; simpl in *; try discriminate;
      injection Hiter as <-; auto.
  - right; right; right. exists nodes, n. split; [done|]. split; [done|].
    destruct n as [node| | |];
      try (rewrite cast_node_non_element in Hcast by discriminate;
           by injection Hcast as <-).
    by apply cast_node_Raise in Hcast.
Qed.

Lemma extraction_raises_only_witness :
  exists key item,
    In (key, item) [("name", name_item);
                    ("first", {[ "xpath" := "t:Name/text()" ]})] /\
    ((item !! "xpath" = None
      /\ AttributeError
           "'lxml.etree._ElementUnicodeResult' object has no attribute 'text'"
         = KeyError "xpath")
     \/ (exists path,
           item !! "xpath" = Some path
           /\ @xpath Reference.lxml sample_item path SOAP_NAMESPACES
              = Raise (AttributeError
                         "'lxml.etree._ElementUnicodeResult' object has no attribute 'text'"))
     \/ (exists path found,
           item !! "xpath" = Some path
           /\ @xpath Reference.lxml sample_item path SOAP_NAMESPACES
              = Return found
           /\ (found = XFloat false \/ found = XBool true)
           /\ AttributeError
                "'lxml.etree._ElementUnicodeResult' object has no attribute 'text'"
              = TypeError ("'" ++ result_type found
                           ++ "' object is not iterable"))
     \/ (exists nodes n,
           @selects Reference.lxml sample_item SOAP_NAMESPACES item nodes
           /\ In n nodes
           /\ match n with
              | XElement node =>
                  converting (item !! "cast")
                  /\ match text node with
                     | Some _ =>
                         item !! "cast" <> Some "bool"
                         /\ exists why,
                              AttributeError
                                "'lxml.etree._ElementUnicodeResult' object has no attribute 'text'"
                              = ValueError why
                     | None =>
                         if decide (item !! "cast" = Some "bool")
                         then exists msg,
                                AttributeError
                                  "'lxml.etree._ElementUnicodeResult' object has no attribute 'text'"
                                = AttributeError msg
                         else exists msg,
                                AttributeError
                                  "'lxml.etree._ElementUnicodeResult' object has no attribute 'text'"
                                = TypeError msg
                     end
              | _ =>
                  AttributeError
                    "'lxml.etree._ElementUnicodeResult' object has no attribute 'text'"
                  = AttributeError
                      ("'" ++ type_name n
                       ++ "' object has no attribute 'text'")
              end)).
Proof.
  apply (@extraction_raises_only Reference.lxml sample_item
           [("name", name_item);
            ("first", {[ "xpath" := "t:Name/text()" ]})]
           SOAP_NAMESPACES
           (AttributeError
              "'lxml.etree._ElementUnicodeResult' object has no attribute 'text'")).
  reflexivity.
Defined.

(** ** What [_parse] and [send] return *)

Section Returned.

Context {L : Lxml}.

(** A document [_parse] returns is the parse of the encoded response and
    has no [Fault] element of the envelope namespace anywhere. *)
Theorem parse_returns_fault_free (response encoding : string)
    (tree : element) :
  finds_faults L ->
  _parse response encoding = Return tree ->
  (exists data, str_encode response encoding = Return data
                /\ XML data = Return tree)
  /\ forall e, e = tree \/ descendant e tree -> is_fault e = false.
Proof.
  intros Hlaw. unfold _parse, _check_for_errors. unbind.
  destruct (str_encode response encoding) as [data|e1];
    [|destruct e1; discriminate].
  destruct (XML data) as [tree'|e2] eqn:Hxml; [|destruct e2; discriminate].
  rewrite check_for_SOAP_fault_spec by done.
  destruct (List.find is_fault (iter tree')) eqn:Hfind; [discriminate|].
  destruct (tostring tree' encoding true); [|discriminate].
  intros [= <-]. split; [eauto|].
  intros e He. apply iter_descendant in He.
  by apply (find_none _ _ Hfind).
Qed.

Variable connection_send :
  bytes -> option (list (string * string)) -> Z -> Z -> result string.

(** [send] serialises the envelope under [encoding] twice, for the log
    and for the connection, before the connection is called.  It returns
    a document exactly when both serialisations return, the connection,
    given the serialised envelope and the headers, retries and timeout
    as they were passed, returns a response that encodes and parses to
    that document, the document has no fault, and its serialisation for
    the log returns.  When the serialiser does not know the encoding,
    [send] raises its [LookupError] whatever the connection would do;
    else what the connection raises, [send] raises. *)
Theorem send_returns (xml : element)
    (headers : option (list (string * string))) (retries timeout : Z)
    (encoding : string) (user_availability_req : bool) (tree : element) :
  finds_faults L ->
  (send connection_send xml headers retries timeout encoding
        user_availability_req = Return tree
   <-> exists body response data,
         returns (tostring (_wrap_soap_xml_request xml user_availability_req)
                           encoding true)
         /\ tostring (_wrap_soap_xml_request xml user_availability_req)
                     encoding false = Return body
         /\ connection_send body headers retries timeout = Return response
         /\ str_encode response encoding = Return data
         /\ XML data = Return tree
         /\ List.find is_fault (iter tree) = None
         /\ returns (tostring tree encoding true))
  /\ (forall e,
        tostring (_wrap_soap_xml_request xml user_availability_req)
                 encoding true = Raise e
        \/ tostring (_wrap_soap_xml_request xml user_availability_req)
                    encoding false = Raise e ->
        send connection_send xml headers retries timeout encoding
             user_availability_req
        = Raise (LookupError ("unknown encoding: '" ++ encoding ++ "'")))
  /\ (forall body e,
        returns (tostring (_wrap_soap_xml_request xml user_availability_req)
                          encoding true) ->
        tostring (_wrap_soap_xml_request xml user_availability_req)
                 encoding false = Return body ->
        connection_send body headers retries timeout = Raise e ->
        send connection_send xml headers retries timeout encoding
             user_availability_req = Raise e).
Proof.
  intros Hlaw. unfold send, _send_soap_request. split; [split|split].
  - intros H. apply bind_Return in H as (logged & Hlog & H).
    apply bind_Return in H as (response & Hsent & Hparse).
    apply bind_Return in Hsent as (body & Hbody & Hconn).
    exists body, response. unfold _parse, _check_for_errors in Hparse.
    unbind.
    destruct (str_encode response encoding) as [data|e1];
      [|destruct e1; discriminate].
    destruct (XML data) as [tree'|e2] eqn:Hxml; [|destruct e2; discriminate].
    rewrite check_for_SOAP_fault_spec in Hparse by done.
    destruct (List.find is_fault (iter tree')) eqn:Hfind; [discriminate|].
    destruct (tostring tree' encoding true) as [written|] eqn:Hwritten;
      [|discriminate].
    injection Hparse as <-. exists data.
    repeat split; try done; by eexists.
  - intros (body & response & data & [logged Hlog] & Hbody & Hconn & Hdata
            & Hxml & Hfind & [written Hwritten]).
    rewrite Hlog, Hbody. unbind. rewrite Hconn.
    rewrite (parse_of_tree _ _ _ _ Hdata Hxml).
    rewrite check_for_SOAP_fault_spec by done. rewrite Hfind. unbind.
    by rewrite Hwritten.
  - intros e [Hlog|Hbody].
    + rewrite Hlog. unbind. by rewrite (tostring_Raise _ _ _ _ Hlog).
    + destruct (tostring _ encoding true) as [logged|e'] eqn:Hlog; unbind.
      * rewrite Hbody. by rewrite (tostring_Raise _ _ _ _ Hbody).
      * by rewrite (tostring_Raise _ _ _ _ Hlog).
  - intros body e [logged Hlog] Hbody Hconn.
    rewrite Hlog, Hbody. unbind. by rewrite Hconn.
Qed.

End Returned.

(** ** The envelope *)

(** The envelope determines what it was made from: two calls of
    [_wrap_soap_xml_request] give the same envelope only for the same
    body and the same header variant. *)
Theorem wrap_is_injective (x y : element) (f g : bool) :
  _wrap_soap_xml_request x f = _wrap_soap_xml_request y g ->
  x = y /\ f = g.
Proof.
  rewrite !wrap_children. intros [= Hheader Hbody]. split; [done|].
  destruct f, g; try done;
    apply (f_equal (fun h => length (children h))) in Hheader;
    vm_compute in Hheader; discriminate Hheader.
Qed.

Lemma iter_cons q a t cs tl :
  iter (Element q a t cs tl) = Element q a t cs tl :: flat_map iter cs.
Proof. reflexivity. Qed.

Lemma filter_cons_false {A} (p : A -> bool) (a : A) (l : list A) :
  p a = false -> List.filter p (a :: l) = List.filter p l.
Proof. simpl. by intros ->. Qed.

(** The envelope has a fault exactly where the body has one: the header
    and the wrapping elements are none, so [_check_for_SOAP_fault] on the
    envelope finds the faults of the body, in their order. *)
Theorem wrap_adds_no_fault (exchange_xml : element) (flag : bool) :
  List.filter is_fault (iter (_wrap_soap_xml_request exchange_xml flag))
  = List.filter is_fault (iter exchange_xml).
Proof.
  rewrite wrap_children.
  rewrite (iter_cons _ _ _ [_; _]). cbn [flat_map].
  rewrite (iter_cons _ _ _ [_]). cbn [flat_map]. rewrite !app_nil_r.
  rewrite filter_cons_false by reflexivity.
  rewrite List.filter_app, filter_cons_false by reflexivity.
  replace (List.filter is_fault (iter (_exchange_header flag))) with
    (@nil element) by (by destruct flag).
  reflexivity.
Qed.

Lemma parse_returns_fault_free_witness :
  is_fault (S "Body" [
    Child (Element {| ns := None; local := "ok" |} [] None [] None)])
  = false.
Proof.
  apply (@parse_returns_fault_free Reference.lxml plain_response "utf-8"
           (S "Envelope" [Child (S "Body" [
              Child (Element {| ns := None; local := "ok" |} [] None []
                             None)])])).
  - exact reference_finds_faults.
  - reflexivity.
  - right. apply descendant_child. left. reflexivity.
Defined.

Lemma send_returns_witness :
  @send Reference.lxml (fun _ _ _ _ => Return plain_response)
        sample_body None 4 30 "utf-8" false
  = Return (S "Envelope" [Child (S "Body" [
              Child (Element {| ns := None; local := "ok" |} [] None []
                             None)])])
  /\ @send Reference.lxml (fun _ _ _ _ => Return plain_response)
           sample_body None 4 30 "unicode_escape" false
     = Raise (LookupError "unknown encoding: 'unicode_escape'").
Proof.
  split.
  - apply (@send_returns Reference.lxml
             (fun _ _ _ _ => Return plain_response)
             sample_body None 4 30 "utf-8" false).
    + exact reference_finds_faults.
    + exists (Reference.serialize (_wrap_soap_xml_request sample_body false)),
             plain_response, (Reference.utf8 plain_response).
      repeat split; try reflexivity; eexists; reflexivity.
  - destruct (@send_returns Reference.lxml
                (fun _ _ _ _ => Return plain_response)
                sample_body None 4 30 "unicode_escape" false sample_body)
      as (_ & H & _).
    + exact reference_finds_faults.
    + apply (H (LookupError "unknown encoding: 'unicode_escape'")).
      left. reflexivity.
Defined.

Lemma wrap_is_injective_witness : sample_body = sample_body /\ true = true.
Proof.
  apply (wrap_is_injective sample_body sample_body true true). reflexivity.
Defined.

(** ** Which texts the date casts accept *)

Section Accepted.

Import Builtins.

Tactic Notation "each_below" integer(n) tactic(tac) :=
  let k := fresh "k" in
  let Hk := fresh "Hk" in
  match goal with
  | |- forall z : Z, (0 <= z < ?b)%Z -> @?P z =>
      apply (Z_below P (Z.to_nat b)); simpl Z.to_nat
  end;
  intros k Hk; do n (destruct k as [|k]; [tac|]); lia.

Ltac run := simpl; rewrite ?app_nil_r; reflexivity.

(** A two-digit month, day, hour, minute or second is matched exactly
    when it is in the range of the directive's pattern. *)
Lemma matches_dm_any ds rest f (M : Z) :
  (0 <= M < 100)%Z ->
  matches (dm :: lit "-" :: ds) (pad2 M (String "-" rest)) f
  = if ((1 <=? M) && (M <=? 12))%Z then matches ds rest (set_field dm M f)
    else [].
Proof. revert M. each_below 100 run. Qed.

Lemma matches_dd_any ds rest f (D : Z) :
  (0 <= D < 100)%Z ->
  matches (dd :: lit "T" :: ds) (pad2 D (String "T" rest)) f
  = if ((1 <=? D) && (D <=? 31))%Z then matches ds rest (set_field dd D f)
    else [].
Proof. revert D. each_below 100 run. Qed.

Lemma matches_dH_any ds rest f (h : Z) :
  (0 <= h < 100)%Z ->
  matches (dH :: lit ":" :: ds) (pad2 h (String ":" rest)) f
  = if (h <=? 23)%Z then matches ds rest (set_field dH h f) else [].
Proof. revert h. each_below 100 run. Qed.

Lemma matches_dM_any ds rest f (m : Z) :
  (0 <= m < 100)%Z ->
  matches (dM :: lit ":" :: ds) (pad2 m (String ":" rest)) f
  = if (m <=? 59)%Z then matches ds rest (set_field dM m f) else [].
Proof. revert m. each_below 100 run. Qed.

Lemma matches_dS_any ds rest f (s : Z) :
  (0 <= s < 100)%Z ->
  matches (dS :: lit "Z" :: ds) (pad2 s (String "Z" rest)) f
  = if (s <=? 61)%Z then matches ds rest (set_field dS s f) else [].
Proof. revert s. each_below 100 run. Qed.

(** A two-digit day at the end of the text: the first match, if there is
    one, reads the whole of it exactly when the day is in 1..31. *)
Lemma matches_dd_end f (D : Z) :
  (0 <= D < 100)%Z ->
  match matches [dd] (pad2 D EmptyString) f with
  | (f', EmptyString) :: _ => (1 <= D <= 31)%Z /\ f' = set_field dd D f
  | _ => ~ (1 <= D <= 31)%Z
  end.
Proof. revert D. each_below 100 (simpl; first [lia | split; [lia | reflexivity]]). Qed.

Lemma substring_isodate (Y M D : Z) (ext : string) :
  substring 0 10 (isodate Y M D ext) = isodate Y M D EmptyString.
Proof. unfold isodate, pad4, pad2. simpl. by destruct ext. Qed.

(** [strptime] on the texts written [YYYY-MM-DDTHH:MM:SSZ], any digits in
    the fields. *)
Lemma strptime_fixed (Y M D h m s : Z) :
  (0 <= Y <= 9999)%Z -> (0 <= M <= 99)%Z -> (0 <= D <= 99)%Z ->
  (0 <= h <= 99)%Z -> (0 <= m <= 99)%Z -> (0 <= s <= 99)%Z ->
  if valid_timestamp Y M D h m s
  then strptime (Some (isoformat Y M D h m s)) EXCHANGE_DATE_FORMAT
       = Return {| year := Y; month := M; day := D; hour := h; minute := m;
                   second := s; microsecond := 0; tz := None |}
  else exists why,
         strptime (Some (isoformat Y M D h m s)) EXCHANGE_DATE_FORMAT
         = Raise (ValueError why).
Proof.
  intros HY HM HD Hh Hm Hs.
  pose proof (days_in_month_le Y M) as Hdays.
  unfold strptime, isoformat.
  change (parse_format false EXCHANGE_DATE_FORMAT)
    with (Some [dY; lit "-"; dm; lit "-"; dd; lit "T";
                dH; lit ":"; dM; lit ":"; dS; lit "Z"]%char).
  cbv beta iota.
  rewrite matches_dY, matches_dm_any, matches_dd_any, matches_dH_any,
    matches_dM_any, matches_dS_any by lia.
  unfold valid_timestamp.
  destruct (Z.leb_spec 1 Y), (Z.leb_spec 1 M), (Z.leb_spec M 12),
    (Z.leb_spec 1 D), (Z.leb_spec D (days_in_month Y M)), (Z.leb_spec D 31),
    (Z.leb_spec h 23), (Z.leb_spec m 59), (Z.leb_spec s 59),
    (Z.leb_spec s 61);
    try lia; cbn [andb];
    try (eexists; reflexivity);
    cbn [matches set_field initial year month day hour minute second
         microsecond tz]; unfold construct; cbn [year month day second];
    repeat match goal with
           | |- context [(?a <? ?b)%Z] => destruct (Z.ltb_spec a b)
           end; try lia; try (eexists; reflexivity); reflexivity.
Qed.

(** [strptime] against [%Y-%m-%d] on the texts written [YYYY-MM-DD]. *)
Lemma strptime_isodate (Y M D : Z) :
  (0 <= Y <= 9999)%Z -> (0 <= M <= 99)%Z -> (0 <= D <= 99)%Z ->
  if valid_timestamp Y M D 0 0 0
  then strptime (Some (isodate Y M D EmptyString)) "%Y-%m-%d"
       = Return {| year := Y; month := M; day := D; hour := 0; minute := 0;
                   second := 0; microsecond := 0; tz := None |}
  else exists why,
         strptime (Some (isodate Y M D EmptyString)) "%Y-%m-%d"
         = Raise (ValueError why).
Proof.
  intros HY HM HD.
  pose proof (days_in_month_le Y M) as Hdays.
  unfold strptime, isodate.
  change (parse_format false "%Y-%m-%d")
    with (Some [dY; lit "-"; dm; lit "-"; dd]%char).
  cbv beta iota.
  rewrite matches_dY by lia.
  assert (Hmonth : forall f,
            matches [dm; lit "-"; dd]%char
                    (pad2 M (String "-" (pad2 D EmptyString))) f
            = if ((1 <=? M) && (M <=? 12))%Z
              then matches [dd] (pad2 D EmptyString) (set_field dm M f)
              else []).
  { intros f. by rewrite matches_dm_any by lia. }
  rewrite Hmonth. clear Hmonth.
  pose proof (matches_dd_end (set_field dm M (set_field dY Y initial)) D
                ltac:(lia)) as Hday.
  unfold valid_timestamp.
  destruct (Z.leb_spec 1 Y), (Z.leb_spec 1 M), (Z.leb_spec M 12),
    (Z.leb_spec 1 D), (Z.leb_spec D (days_in_month Y M));
    cbn [andb Z.leb]; try (eexists; reflexivity);
    destruct (matches [dd] (pad2 D EmptyString) _) as [|[f' [|c r]] junk];
    try (eexists; reflexivity); try lia;
    destruct Hday as [_ ->];
    unfold construct;
    cbn [set_field initial year month day hour minute second microsecond tz];
    repeat match goal with
           | |- context [(?a <? ?b)%Z] => destruct (Z.ltb_spec a b)
           end; try lia; try (eexists; reflexivity); reflexivity.
Qed.

Lemma valid_date_of_timestamp (Y M D h m s : Z) :
  valid_timestamp Y M D h m s = true -> valid_timestamp Y M D 0 0 0 = true.
Proof.
  unfold valid_timestamp. rewrite !andb_true_iff. cbn [Z.leb]. tauto.
Qed.

End Accepted.

(** Among the texts written [YYYY-MM-DDTHH:MM:SSZ] with any digits in the
    fields, [_parse_date] returns for those that name a day of the
    calendar and a time of that day, and for no other: month 13, day 0,
    the 30th of February, the 29th of February of a common year, hour 24,
    minute 60, second 60 and year 0 all raise [ValueError]. *)
Theorem parse_date_accepts_valid_only (Y M D h m s : Z) :
  (0 <= Y <= 9999)%Z -> (0 <= M <= 99)%Z -> (0 <= D <= 99)%Z ->
  (0 <= h <= 99)%Z -> (0 <= m <= 99)%Z -> (0 <= s <= 99)%Z ->
  if valid_timestamp Y M D h m s
  then _parse_date (Some (isoformat Y M D h m s))
       = Return {| year := Y; month := M; day := D; hour := h; minute := m;
                   second := s; microsecond := 0; tz := Some utc |}
  else exists why,
         _parse_date (Some (isoformat Y M D h m s)) = Raise (ValueError why).
Proof.
  intros HY HM HD Hh Hm Hs.
  pose proof (strptime_fixed Y M D h m s HY HM HD Hh Hm Hs) as H.
  unfold _parse_date. destruct (valid_timestamp Y M D h m s).
  - by rewrite H.
  - destruct H as [why ->]. by exists why.
Qed.

(** [_parse_date_only_naive] on a text that starts [YYYY-MM-DD], any
    digits in the fields and anything at all after them: it returns the
    date when the three fields name a day of the calendar, whatever
    follows, and raises [ValueError] when they do not. *)
Theorem date_only_accepts_valid_only (Y M D : Z) (ext : string) :
  (0 <= Y <= 9999)%Z -> (0 <= M <= 99)%Z -> (0 <= D <= 99)%Z ->
  if valid_timestamp Y M D 0 0 0
  then _parse_date_only_naive (Some (isodate Y M D ext))
       = Return {| date_year := Y; date_month := M; date_day := D |}
  else exists why,
         _parse_date_only_naive (Some (isodate Y M D ext))
         = Raise (ValueError why).
Proof.
  intros HY HM HD.
  pose proof (strptime_isodate Y M D HY HM HD) as H.
  rewrite date_only_strptime, substring_isodate.
  destruct (valid_timestamp Y M D 0 0 0).
  - by rewrite H.
  - destruct H as [why ->]. by exists why.
Qed.

(** On a text written [YYYY-MM-DDTHH:MM:SSZ] that the timestamp cast
    accepts, the date-only cast returns too, and what it returns is the
    date of the timestamp. *)
Theorem date_only_is_date_of_datetime (Y M D h m s : Z) (d : datetime) :
  (0 <= Y <= 9999)%Z -> (0 <= M <= 99)%Z -> (0 <= D <= 99)%Z ->
  (0 <= h <= 99)%Z -> (0 <= m <= 99)%Z -> (0 <= s <= 99)%Z ->
  _parse_date (Some (isoformat Y M D h m s)) = Return d ->
  _parse_date_only_naive (Some (isoformat Y M D h m s)) = Return (date_of d).
Proof.
  intros HY HM HD Hh Hm Hs Hd.
  pose proof (strptime_fixed Y M D h m s HY HM HD Hh Hm Hs) as Hfull.
  pose proof (strptime_isodate Y M D HY HM HD) as Hdate.
  unfold _parse_date in Hd.
  destruct (valid_timestamp Y M D h m s) eqn:Hvalid.
  - rewrite (valid_date_of_timestamp _ _ _ _ _ _ Hvalid) in Hdate.
    rewrite Hfull in Hd. injection Hd as <-.
    change (isoformat Y M D h m s)
      with (isodate Y M D (String "T" (pad2 h (String ":" (pad2 m
              (String ":" (pad2 s "Z"))))))).
    by rewrite date_only_strptime, substring_isodate, Hdate.
  - destruct Hfull as [why Hwhy]. by rewrite Hwhy in Hd.
Qed.

Lemma parse_date_accepts_valid_only_witness :
  exists why,
    _parse_date (Some (isoformat 2013 2 29 0 0 0)) = Raise (ValueError why).
Proof.
  apply (parse_date_accepts_valid_only 2013 2 29 0 0 0); lia.
Defined.

Lemma date_only_accepts_valid_only_witness :
  _parse_date_only_naive (Some (isodate 2012 2 29 "T25:61:00+01:00"))
  = Return {| date_year := 2012; date_month := 2; date_day := 29 |}.
Proof.
  apply (date_only_accepts_valid_only 2012 2 29 "T25:61:00+01:00"); lia.
Defined.

Lemma date_only_is_date_of_datetime_witness :
  _parse_date_only_naive (Some (isoformat 2013 5 1 23 59 59))
  = Return {| date_year := 2013; date_month := 5; date_day := 1 |}.
Proof.
  apply (date_only_is_date_of_datetime 2013 5 1 23 59 59
           {| year := 2013; month := 5; day := 1; hour := 23; minute := 59;
              second := 59; microsecond := 0; tz := Some utc |});
    first [lia | reflexivity].
Defined.
